(** * The template service of the cursor-rules extension

    A shallow embedding of
    [vscode-extension/src/templates/templateService.ts] and of
    [vscode-extension/src/schemas/cursorrules.schema.json].

    JavaScript strings are represented by their UTF-8 bytes (Rocq's
    [string]), so [Buffer.from(s, 'utf-8')] and a [readFile] with the
    ['utf-8'] encoding are the identity on text; the files are taken to
    hold well-formed UTF-8.  A URI or file path is absolute and
    normalised: the list of its segments below the root.

    An [async] function is a function from the world it finds to the
    world it leaves and to what it returns or throws; [await] is
    sequencing.  One call runs alone: calls that interleave are not
    modelled.

    The file has the definitions first (paths, the file system, the
    JavaScript built-ins, the host, the service, the schema, the
    scenarios), then the properties. *)

From stdpp Require Import gmap strings list fin_maps.
From Stdlib Require Import ZArith Ascii.

#[local] Set Warnings "-register-all".

(** ** Paths ([path.dirname], [path.join], [vscode.Uri.joinPath]) *)

Module Uri.

Definition path := list string.

(** [path.dirname(p)]: the path without its last segment; the root is
    its own parent. *)
Definition dirname (p : path) : path := removelast p.

(** [vscode.Uri.joinPath(base, name)] and [path.join(base, name)] for one
    segment [name]. *)
Definition joinPath (base : path) (name : string) : path := base ++ [name].

(** [uri.path.split('/').pop()]: the last segment. *)
Definition pop (p : path) : option string := last p.

(** [a] is [b] or one of its ancestors. *)
Definition within (a b : path) : bool := bool_decide (a `prefix_of` b).

End Uri.

Export Uri.

(** ** The file system behind [vscode.workspace.fs] and [fs.promises]

    The platform is outside the repository; it is modelled after its
    documented contract.  A file system maps paths to nodes; the root is
    the empty path.  Reading ([stat], [readFile]) fails
    exactly when the path is not there; an operation that changes the file
    system may also be refused by the environment (permissions, quota,
    a provider that is unavailable), which the host's [fault] decides. *)

Module Fs.

Inductive node := File (content : string) | Dir.

#[global] Instance node_eq_dec : EqDecision node.
Proof. solve_decision. Defined.

Inductive FileSystemError :=
| FileNotFound | FileExists | FileNotADirectory | FileIsADirectory
| NoPermissions | Unavailable.

Inductive op :=
| OpCopy (source target : path)
| OpDelete (uri : path)
| OpWriteFile (uri : path)
| OpCreateDirectory (uri : path)
| OpOpenTextDocument (uri : path).

Definition is_dir (fs : gmap path node) (p : path) : bool :=
  match fs !! p with Some Dir => true | _ => false end.

(** The entries at or below [p]. *)
Definition subtree (p : path) (fs : gmap path node) : gmap path node :=
  filter (λ kv, p `prefix_of` kv.1) fs.

(** What is left when everything at or below [p] is removed. *)
Definition prune (p : path) (fs : gmap path node) : gmap path node :=
  filter (λ kv, ¬ p `prefix_of` kv.1) fs.

(** The subtree of [source], moved so that its root is [target]. *)
Definition graft (source target : path) (fs : gmap path node) : gmap path node :=
  list_to_map
    ((λ kv : path * node, (target ++ drop (length source) kv.1, kv.2))
       <$> map_to_list (subtree source fs)).

(** Every entry but the root lies in a directory. *)
Definition well_formed (fs : gmap path node) : Prop :=
  ∀ p n, p ≠ [] → fs !! p = Some n → fs !! dirname p = Some Dir.

(** The non-empty prefixes of a path, shortest first. *)
Fixpoint ancestors_from (base : path) (p : path) : list path :=
  match p with
  | [] => []
  | x :: q => (base ++ [x]) :: ancestors_from (base ++ [x]) q
  end.

Definition ancestors (p : path) : list path := ancestors_from [] p.

(** No ancestor of [p] (or [p] itself) is a file. *)
Definition no_file_on (fs : gmap path node) (p : path) : bool :=
  forallb (λ q, match fs !! q with Some (File _) => false | _ => true end)
          (ancestors p).

(** [mkdir -p]: [p] and its missing ancestors become directories. *)
Definition mkdirp (p : path) (fs : gmap path node) : gmap path node :=
  foldl (λ m q, <[q := Dir]> m) fs (ancestors p).

(** A directory that still has entries below it. *)
Definition has_children (fs : gmap path node) (p : path) : bool :=
  negb (bool_decide (map_Forall (λ k _, k = p) (subtree p fs))).

End Fs.

Export Fs.

(** ** The JavaScript built-ins the service calls *)

Module Js.

(** [s.split(sep)] for a one-character separator: the pieces between its
    occurrences; never empty, [''.split(sep)] is [['']]. *)
Fixpoint split (sep : ascii) (s : string) : list string :=
  match s with
  | EmptyString => [EmptyString]
  | String c r =>
      if decide (c = sep) then EmptyString :: split sep r
      else match split sep r with
           | [] => [String c EmptyString]
           | piece :: pieces => String c piece :: pieces
           end
  end.

(** The text before the first [sep]: what [s.split(sep)[0]] is. *)
Fixpoint before (sep : ascii) (s : string) : string :=
  match s with
  | EmptyString => EmptyString
  | String c r => if decide (c = sep) then EmptyString else String c (before sep r)
  end.

Definition bytes (l : list nat) : string :=
  foldr (λ n s, String (ascii_of_nat n) s) EmptyString l.

(** ECMAScript's WhiteSpace and LineTerminator code points, in UTF-8:
    TAB, LF, VT, FF, CR, SP, U+00A0, U+1680, U+2000..U+200A, U+2028,
    U+2029, U+202F, U+205F, U+3000, U+FEFF. *)
Definition white_space : list string :=
  [ bytes [9]; bytes [10]; bytes [11]; bytes [12]; bytes [13]; bytes [32];
    bytes [194; 160]; bytes [225; 154; 128];
    bytes [226; 128; 128]; bytes [226; 128; 129]; bytes [226; 128; 130];
    bytes [226; 128; 131]; bytes [226; 128; 132]; bytes [226; 128; 133];
    bytes [226; 128; 134]; bytes [226; 128; 135]; bytes [226; 128; 136];
    bytes [226; 128; 137]; bytes [226; 128; 138];
    bytes [226; 128; 168]; bytes [226; 128; 169]; bytes [226; 128; 175];
    bytes [226; 129; 159]; bytes [227; 128; 128]; bytes [239; 187; 191] ].

(** The number of bytes of the member of [ws] that [s] starts with, 0
    when it starts with none. *)
Definition head_length (ws : list string) (s : string) : nat :=
  match List.find (λ w, String.prefix w s) ws with
  | Some w => String.length w
  | None => 0
  end.

(** Drops the members of [ws] that [s] starts with; [skip] counts the
    bytes of the current member that are still to drop. *)
Fixpoint drop_leading (ws : list string) (skip : nat) (s : string) : string :=
  match s with
  | EmptyString => EmptyString
  | String _ r =>
      match skip with
      | S k => drop_leading ws k r
      | O => match head_length ws s with
             | O => s
             | S k => drop_leading ws k r
             end
      end
  end.

Definition trimStart (s : string) : string := drop_leading white_space 0 s.

Definition trimEnd (s : string) : string :=
  String.rev (drop_leading (String.rev <$> white_space) 0 (String.rev s)).

(** [s.trim()] *)
Definition trim (s : string) : string := trimEnd (trimStart s).

(** [s.replace(/[...]/g, by)] for a character class and a one-character
    replacement. *)
Fixpoint replace_all (class : ascii → bool) (by_ : ascii) (s : string) : string :=
  match s with
  | EmptyString => EmptyString
  | String c r => String (if class c then by_ else c) (replace_all class by_ r)
  end.

(** The character class [[:.]]. *)
Definition colon_or_dot : ascii → bool :=
  λ c, bool_decide (c = ":"%char ∨ c = "."%char).
#[global] Arguments colon_or_dot : simpl never.

(** A [Date], by its UTC calendar fields ([month] is 1..12). *)
Record Date := mkDate {
  year : Z; month : Z; day : Z;
  hours : Z; minutes : Z; seconds : Z; milliseconds : Z }.

Definition digit (n : Z) : ascii := ascii_of_nat (48 + Z.to_nat (n mod 10)).
#[global] Arguments digit : simpl never.

(** [n] in decimal, the last [width] digits, zero-padded. *)
Fixpoint pad (width : nat) (n : Z) : string :=
  match width with
  | O => EmptyString
  | S w => pad w (n / 10) +:+ String (digit n) EmptyString
  end.

(** The year of an ISO string: four digits for 0..9999, else a sign and
    six digits (ECMAScript's expanded years). *)
Definition iso_year (y : Z) : string :=
  if bool_decide (0 ≤ y ≤ 9999)%Z then pad 4 y
  else (if bool_decide (y < 0)%Z then "-" else "+") +:+ pad 6 (Z.abs y).

(** [date.toISOString()]: [YYYY-MM-DDTHH:mm:ss.sssZ]. *)
Definition toISOString (d : Date) : string :=
  iso_year (year d) +:+ "-" +:+ pad 2 (month d) +:+ "-" +:+ pad 2 (day d)
    +:+ "T" +:+ pad 2 (hours d) +:+ ":" +:+ pad 2 (minutes d)
    +:+ ":" +:+ pad 2 (seconds d) +:+ "." +:+ pad 3 (milliseconds d) +:+ "Z".

(** The first comparison that is not [Eq] decides. *)
Definition lex (c d : comparison) : comparison :=
  match c with Eq => d | _ => c end.

(** Earlier, same or later: the order of the instants two dates name. *)
Definition chronological (a b : Date) : comparison :=
  lex (year a ?= year b)%Z
 (lex (month a ?= month b)%Z
 (lex (day a ?= day b)%Z
 (lex (hours a ?= hours b)%Z
 (lex (minutes a ?= minutes b)%Z
 (lex (seconds a ?= seconds b)%Z
      (milliseconds a ?= milliseconds b)%Z))))).

(** The fields of a date are in their calendar ranges. *)
Definition valid (d : Date) : Prop :=
  (1 ≤ month d ≤ 12 ∧ 1 ≤ day d ≤ 31 ∧ 0 ≤ hours d ≤ 23 ∧
   0 ≤ minutes d ≤ 59 ∧ 0 ≤ seconds d ≤ 59 ∧ 0 ≤ milliseconds d ≤ 999)%Z.

End Js.

Export Js.

(** ** [path.join] for a fragment of any shape

    Node's [path.join] puts a separator between its arguments and
    normalises the result: empty segments and [.] are dropped, [..]
    goes up one level and stays at the root of an absolute path.  The
    separator is the slash of POSIX. *)

Module Path.

(** One segment, resolved from [base]. *)
Definition resolve (base : path) (segment : string) : path :=
  if decide (segment = "" ∨ segment = ".") then base
  else if decide (segment = "..") then dirname base
  else joinPath base segment.

(** [path.join(base, fragment)] *)
Definition join (base : path) (fragment : string) : path :=
  foldl resolve base (split "/" fragment).

(** What can name an entry of a directory: a string other than the empty
    one, [.] and [..] that holds no separator. *)
Definition is_name (s : string) : bool :=
  negb (bool_decide (s ∈ [""; "."; ".."])) &&
  forallb (λ c, negb (bool_decide (c = "/"%char))) (String.list_ascii_of_string s).

End Path.

(** ** The extension host: state, user, exceptions *)

Module Host.

(** What a [throw] carries. *)
Inductive exn :=
| FsError (code : FileSystemError)
| Error (text : string)
| TypeError (text : string).

(** [error instanceof Error ? error.message : String(error)]; every
    exception here is an [Error]. *)
Definition message (e : exn) : string :=
  match e with
  | FsError FileNotFound => "FileNotFound"
  | FsError FileExists => "FileExists"
  | FsError FileNotADirectory => "FileNotADirectory"
  | FsError FileIsADirectory => "FileIsADirectory"
  | FsError NoPermissions => "NoPermissions"
  | FsError Unavailable => "Unavailable"
  | Error text => text
  | TypeError text => text
  end.

(** What a call can change: the files, the information messages shown,
    the lines written with [console.error], the documents shown in an
    editor. *)
Record world := mkWorld {
  files : gmap path node;
  notifications : list string;
  console : list string;
  editors : list path }.

Definition with_files (w : world) (fs : gmap path node) : world :=
  mkWorld fs (notifications w) (console w) (editors w).

(** What a call finds: [vscode.workspace.workspaceFolders] ([None] for
    [undefined]), the user's answer to a warning prompt ([None] when it
    is dismissed), the clock, and the operations the environment
    refuses. *)
Record host := mkHost {
  workspaceFolders : option (list path);
  choice : option string;
  now : Date;
  fault : op → bool }.

Inductive outcome (A : Type) := Return (a : A) | Throw (e : exn).
Arguments Return {A} a.
Arguments Throw {A} e.

(** An asynchronous function, run to completion: it changes the world
    and returns or throws. *)
Definition M (A : Type) : Type := world → world * outcome A.

Definition throw {A} (e : exn) : M A := λ w, (w, Throw e).

#[global] Instance M_ret : MRet M := λ A a w, (w, Return a).

#[global] Instance M_bind : MBind M := λ A B k m w,
  match m w with
  | (w', Return a) => k a w'
  | (w', Throw e) => (w', Throw e)
  end.

(** [try { body } catch (e) { handler }] *)
Definition try_catch {A} (body : M A) (handler : exn → M A) : M A :=
  λ w, match body w with
       | (w', Return a) => (w', Return a)
       | (w', Throw e) => handler e w'
       end.

Section api.
Context (h : host).

(** [vscode.workspace.fs.stat(uri)] *)
Definition stat (uri : path) : M unit := λ w,
  match files w !! uri with
  | Some _ => (w, Return ())
  | None => (w, Throw (FsError FileNotFound))
  end.

(** [vscode.workspace.fs.copy(source, target, { overwrite })]: files
    and folders, folders with all they hold.  Neither path may lie
    within the other; the target's parent must exist; an existing
    target is replaced when [overwrite] is set and refuses the copy
    otherwise. *)
Definition copy (source target : path) (overwrite : bool) : M unit := λ w,
  let fs := files w in
  if fault h (OpCopy source target) then (w, Throw (FsError NoPermissions))
  else match fs !! source with
  | None => (w, Throw (FsError FileNotFound))
  | Some n =>
    if within source target || within target source
    then (w, Throw (FsError Unavailable))
    else if negb (is_dir fs (dirname target))
    then (w, Throw (FsError FileNotFound))
    else match fs !! target, overwrite with
    | Some _, false => (w, Throw (FsError FileExists))
    | present, _ =>
      let rest := if present is Some _ then prune target fs else fs in
      (with_files w match n with
                    | File c => <[target := File c]> rest
                    | Dir => graft source target fs ∪ rest
                    end,
       Return ())
    end
  end.

(** [vscode.workspace.fs.delete(uri)], not recursive. *)
Definition delete (uri : path) : M unit := λ w,
  let fs := files w in
  if fault h (OpDelete uri) then (w, Throw (FsError NoPermissions))
  else match fs !! uri with
  | None => (w, Throw (FsError FileNotFound))
  | Some _ =>
    if has_children fs uri then (w, Throw (FsError Unavailable))
    else (with_files w (base.delete uri fs), Return ())
  end.

(** [vscode.workspace.fs.createDirectory(uri)], with the missing
    parents. *)
Definition createDirectory (uri : path) : M unit := λ w,
  let fs := files w in
  if fault h (OpCreateDirectory uri) then (w, Throw (FsError NoPermissions))
  else if no_file_on fs uri then (with_files w (mkdirp uri fs), Return ())
  else (w, Throw (FsError FileExists)).

(** [vscode.workspace.fs.writeFile(uri, content)]: creates the file,
    with the missing parents, or replaces its whole content. *)
Definition writeFile (uri : path) (content : string) : M unit := λ w,
  let fs := files w in
  if fault h (OpWriteFile uri) then (w, Throw (FsError NoPermissions))
  else if is_dir fs uri then (w, Throw (FsError FileIsADirectory))
  else if no_file_on fs (dirname uri)
  then (with_files w (<[uri := File content]> (mkdirp (dirname uri) fs)), Return ())
  else (w, Throw (FsError FileNotADirectory)).

(** [fs.promises.readFile(file, 'utf-8')] *)
Definition readFile (file : path) : M string := λ w,
  match files w !! file with
  | Some (File content) => (w, Return content)
  | Some Dir => (w, Throw (Error "EISDIR: illegal operation on a directory, read"))
  | None => (w, Throw (Error "ENOENT: no such file or directory"))
  end.

(** [vscode.window.showWarningMessage(text, ...items)]: the item the
    user picks, [None] when the prompt is dismissed. *)
Definition showWarningMessage (text : string) (items : list string)
  : M (option string) := mret (choice h).

(** [vscode.window.showInformationMessage(text)] *)
Definition showInformationMessage (text : string) : M unit := λ w,
  (mkWorld (files w) (notifications w ++ [text]) (console w) (editors w),
   Return ()).

(** [console.error(line)] *)
Definition console_error (line : string) : M unit := λ w,
  (mkWorld (files w) (notifications w) (console w ++ [line]) (editors w),
   Return ()).

(** [vscode.workspace.openTextDocument(uri)]: the document is named by
    its uri. *)
Definition openTextDocument (uri : path) : M path := λ w,
  if fault h (OpOpenTextDocument uri) then (w, Throw (FsError Unavailable))
  else match files w !! uri with
  | Some (File _) => (w, Return uri)
  | Some Dir => (w, Throw (FsError FileIsADirectory))
  | None => (w, Throw (FsError FileNotFound))
  end.

(** [vscode.window.showTextDocument(document)] *)
Definition showTextDocument (document : path) : M unit := λ w,
  (mkWorld (files w) (notifications w) (console w) (editors w ++ [document]),
   Return ()).

End api.

End Host.

Export Host.

(** ** [templateService.ts] *)

Module TemplateService.

Record RuleTemplate := mkRuleTemplate {
  id : string;
  name : string;
  category : string;
  description : string;
  content : string }.

(** The line feed of ['\n']. *)
Definition LF : ascii := ascii_of_nat 10.

(** [fs.promises.readdir(dir, { withFileTypes: true })]: the entries of a
    directory, each with its name and kind. *)
Definition listing (fs : gmap path node) (dir : path) : list (string * node) :=
  omap (λ kv : path * node,
          match last kv.1 with
          | Some entry =>
              if decide (kv.1 = joinPath dir entry) then Some (entry, kv.2) else None
          | None => None
          end)
       (map_to_list fs).

Definition readdir (dir : path) : M (list (string * node)) := λ w,
  if is_dir (files w) dir then (w, Return (listing (files w) dir))
  else (w, Throw (Error "ENOENT: no such file or directory, scandir")).

Definition isDirectory (n : node) : bool :=
  match n with Dir => true | File _ => false end.

Section service.
Context (h : host).

(** The field set by the constructor:
    [path.join(path.dirname(extensionPath), 'rules')]. *)
Context (extensionPath : path).

Definition rulesPath : path := joinPath (dirname extensionPath) "rules".

Definition getTemplateCategories : M (list string) :=
  try_catch
    (entries ← readdir rulesPath;
     mret (fst <$> List.filter (λ entry, isDirectory entry.2) entries))
    (λ error, throw (Error ("Failed to read rule categories: " +:+ message error))).

(** [path.join(this.rulesPath, category)] *)
Definition categoryPath (category : string) : path := Path.join rulesPath category.

Definition getTemplatesInCategory (category : string) : M (list RuleTemplate) :=
  try_catch
    (let categoryPath := categoryPath category in
     content ← readFile (joinPath categoryPath ".cursorrules");
     line ← match split LF content !! 0%nat with
            | Some line => mret line
            | None => throw (TypeError "Cannot read properties of undefined (reading 'trim')")
            end;
     mret [ {| id := category;
               name := category;
               category := category;
               description := trim line;
               content := content |} ])
    (λ error, throw (Error ("Failed to read templates in category " +:+ category
                              +:+ ": " +:+ message error))).

Definition convertTemplateContent (content : string) : string := content.

(** [vscode.Uri.joinPath(workspaceUri, '.cursorrules-backup')] *)
Definition backupDirectory (workspaceUri : path) : path :=
  joinPath workspaceUri ".cursorrules-backup".

Definition ensureBackupDirectory (workspaceUri : path) : M path :=
  let backupDirUri := backupDirectory workspaceUri in
  try_catch (stat backupDirUri)
            (λ _, (* Directory doesn't exist, create it *)
                  createDirectory h backupDirUri);;
  mret backupDirUri.

Definition moveToBackupDirectory (backupUri : path) : M unit :=
  try_catch
    ((* Get workspace root *)
     workspaceFolder ← match workspaceFolders h with
                       | Some (folder :: _) => mret folder
                       | _ => throw (Error "No workspace folder found")
                       end;
     (* Ensure backup directory exists *)
     backupDirUri ← ensureBackupDirectory workspaceFolder;
     (* Create new URI in backup directory *)
     fileName ← match pop backupUri with
                | Some fileName =>
                    if decide (fileName = "")
                    then throw (Error "Invalid backup file path")
                    else mret fileName
                | None => throw (Error "Invalid backup file path")
                end;
     let newBackupUri := joinPath backupDirUri fileName in
     (* Move the file *)
     copy h backupUri newBackupUri false;;
     delete h backupUri)
    (λ error, console_error ("Failed to move backup file: " +:+ message error)).

(** [new Date().toISOString().replace(/[:.]/g, '-')] *)
Definition timestamp : string :=
  replace_all colon_or_dot "-"%char (toISOString (now h)).

(** [`.cursorrules.${timestamp}.backup`] *)
Definition backupFileName : string := ".cursorrules." +:+ timestamp +:+ ".backup".

(** The backup's first place, beside the target. *)
Definition siblingBackupUri (targetUri : path) : path :=
  joinPath (dirname targetUri) backupFileName.

(** The first step of [saveTemplateToWorkspace]: the target given, or
    [.cursorrules] in the first workspace folder. *)
Definition resolveTargetUri (targetUri : option path) : M path :=
  match targetUri with
  | Some uri => mret uri
  | None =>
      match workspaceFolders h with
      | None => throw (Error "No workspace folder found")
      | Some [] =>
          throw (TypeError "Cannot read properties of undefined (reading 'uri')")
      | Some (folder :: _) => mret (joinPath folder ".cursorrules")
      end
  end.

(** The inner [try] of [saveTemplateToWorkspace] with its [catch]: the
    check whether the file exists, the confirmation and the backup.
    The result tells whether the function has returned from within
    the block. *)
Definition backupExisting (targetUri : path) : M bool :=
  try_catch
    (stat targetUri;;
     (* File exists, ask for confirmation *)
     choice ← showWarningMessage h
                "A .cursorrules file already exists. Do you want to replace it?"
                ["Replace"; "Cancel"];
     if decide (choice ≠ Some "Replace") then mret true
     else
       (* Create backup with timestamp *)
       let backupUri := siblingBackupUri targetUri in
       copy h targetUri backupUri true;;
       (* Move backup to dedicated directory *)
       moveToBackupDirectory backupUri;;
       mret false)
    (λ _, (* File doesn't exist, continue with creation *)
          mret false).

(** The end of [saveTemplateToWorkspace], after the inner [try]: the
    write, the message and the editor. *)
Definition writeAndOpen (targetUri : path) (convertedContent : string) : M unit :=
  (* Write the converted template content *)
  writeFile h targetUri convertedContent;;
  (* Show success message with backup info *)
  showInformationMessage "Template saved successfully";;
  (* Open the file *)
  document ← openTextDocument h targetUri;
  showTextDocument document.

Definition saveTemplateToWorkspace (template : RuleTemplate)
    (targetUri : option path) : M unit :=
  try_catch
    ((* If no target URI provided, get the workspace folder *)
     targetUri ← resolveTargetUri targetUri;
     (* Convert template content to proper format *)
     let convertedContent := convertTemplateContent (content template) in
     (* Check if file exists *)
     returned ← backupExisting targetUri;
     if returned : bool then mret ()
     else writeAndOpen targetUri convertedContent)
    (λ error, throw (Error ("Failed to save template: " +:+ message error))).

End service.

End TemplateService.

Export TemplateService.

(** ** [cursorrules.schema.json] and draft-07 validation

    The schema file is data; what it means is fixed by JSON Schema
    draft-07.  The keywords the file uses are embedded with their draft-07
    meaning: [type], [required], [properties], [additionalProperties],
    [items], [enum], [pattern].  [$ref] into [definitions] becomes a
    reference to the Rocq constant of that name; [title], [description],
    [default] and [$schema] do not take part in validation. *)

Module Schema.

(** A parsed JSON document.  Numbers are kept to the integers, the
    schema puts no constraint on a number. *)
Inductive value :=
| Null
| Bool (b : bool)
| Number (n : Z)
| Str (s : string)
| Array (elements : list value)
| Object (members : list (string * value)).

(** [object[key]] *)
Fixpoint get (key : string) (members : list (string * value)) : option value :=
  match members with
  | [] => None
  | (k, v) :: rest => if decide (k = key) then Some v else get key rest
  end.

(** Regular expressions, as far as [pattern] needs them. *)
Inductive regex :=
| Never
| Empty
| Class (member : ascii → bool)
| Seq (r1 r2 : regex)
| Alt (r1 r2 : regex)
| Star (r : regex).

Definition Plus (r : regex) : regex := Seq r (Star r).

Fixpoint nullable (r : regex) : bool :=
  match r with
  | Never => false
  | Empty => true
  | Class _ => false
  | Seq r1 r2 => nullable r1 && nullable r2
  | Alt r1 r2 => nullable r1 || nullable r2
  | Star _ => true
  end.

(** What [r] may still match after it has read [c]. *)
Fixpoint derive (c : ascii) (r : regex) : regex :=
  match r with
  | Never | Empty => Never
  | Class member => if member c then Empty else Never
  | Seq r1 r2 =>
      if nullable r1 then Alt (Seq (derive c r1) r2) (derive c r2)
      else Seq (derive c r1) r2
  | Alt r1 r2 => Alt (derive c r1) (derive c r2)
  | Star r1 => Seq (derive c r1) (Star r1)
  end.

(** [r] matches the whole of [s]. *)
Fixpoint matches (r : regex) (s : string) : bool :=
  match s with
  | EmptyString => nullable r
  | String c rest => matches (derive c r) rest
  end.

(** A [pattern]: a regular expression that may be anchored at the start
    ([^]) and at the end ([$]); unanchored ends match anywhere. *)
Record pattern := mkPattern {
  from_start : bool;
  body : regex;
  to_end : bool }.

Definition anything : regex := Star (Class (λ _, true)).

(** [new RegExp(pattern).test(s)] *)
Definition test (p : pattern) (s : string) : bool :=
  matches (Seq (if from_start p then Empty else anything)
               (Seq (body p) (if to_end p then Empty else anything))) s.

(** [\d] *)
Definition digit_class : regex :=
  Class (λ c, bool_decide (48 ≤ nat_of_ascii c ≤ 57)%nat).

(** [\.] *)
Definition dot : regex := Class (λ c, bool_decide (c = "."%char)).

Inductive type_name := TObject | TArray | TString | TBoolean | TNumber | TNull.

(** A schema object, by the keywords it carries.  An [enum] lists
    strings, as the file's only one does. *)
Inductive schema :=
| Keywords (type : option type_name)
           (required : list string)
           (properties : list (string * schema))
           (additionalProperties : option schema)
           (items : option schema)
           (enum : option (list string))
           (pattern_ : option pattern).

Definition has_type (t : type_name) (v : value) : bool :=
  match t, v with
  | TObject, Object _ | TArray, Array _ | TString, Str _
  | TBoolean, Bool _ | TNumber, Number _ | TNull, Null => true
  | _, _ => false
  end.

(** Draft-07: a keyword constrains the instances of the kind it is
    about and accepts every other instance. *)
Fixpoint validate (s : schema) (v : value) {struct s} : bool :=
  match s with
  | Keywords type required properties additionalProperties items enum pattern_ =>
      match type with Some t => has_type t v | None => true end
      && match v with
         | Object members =>
             forallb (λ key, bool_decide (is_Some (get key members))) required
             && (fix each (ps : list (string * schema)) : bool :=
                   match ps with
                   | [] => true
                   | (key, sub) :: rest =>
                       match get key members with
                       | Some member => validate sub member
                       | None => true
                       end && each rest
                   end) properties
             && match additionalProperties with
                | Some sub =>
                    forallb (λ member : string * value,
                               bool_decide (member.1 ∈ properties.*1)
                               || validate sub member.2) members
                | None => true
                end
         | Array elements =>
             match items with
             | Some sub => forallb (validate sub) elements
             | None => true
             end
         | Str text =>
             match pattern_ with Some p => test p text | None => true end
         | _ => true
         end
      && match enum with
         | Some allowed =>
             match v with
             | Str text => bool_decide (text ∈ allowed)
             | _ => false
             end
         | None => true
         end
  end.

Definition of_type (t : type_name) : schema :=
  Keywords (Some t) [] [] None None None None.

(** [#/definitions/rule] *)
Definition rule : schema :=
  Keywords (Some TObject) ["id"; "level"; "description"]
    [ ("id", of_type TString);
      ("level", Keywords (Some TString) [] [] None None
                         (Some ["error"; "warning"; "info"; "hint"]) None);
      ("description", of_type TString);
      ("pattern", of_type TString);
      ("fix", Keywords (Some TObject) ["replace"]
                [ ("replace", of_type TString); ("message", of_type TString) ]
                None None None None);
      ("disabled", of_type TBoolean) ]
    None None None None.

(** [#/definitions/languageConfig] *)
Definition languageConfig : schema :=
  Keywords (Some TObject) ["rules"]
    [ ("rules", Keywords (Some TArray) [] [] None (Some rule) None None) ]
    None None None None.

(** The pattern of [version]: [^\d+\.\d+\.\d+$]. *)
Definition version_pattern : pattern :=
  mkPattern true
    (Seq (Plus digit_class) (Seq dot (Seq (Plus digit_class)
      (Seq dot (Plus digit_class)))))
    true.

(** The root schema. *)
Definition cursorrules : schema :=
  Keywords (Some TObject) ["version"; "languages"]
    [ ("version", Keywords (Some TString) [] [] None None None (Some version_pattern));
      ("languages", Keywords (Some TObject) [] [] (Some languageConfig) None None None) ]
    None None None None.

(** The document of the specification's fourth scenario, with the
    level of its only rule left open. *)
Definition scenario (level : string) : value :=
  Object [ ("version", Str "1.0.0");
           ("languages",
            Object [ ("ts",
              Object [ ("rules",
                Array [ Object [ ("id", Str "r1");
                                 ("level", Str level);
                                 ("description", Str "x") ] ]) ]) ]) ].

End Schema.

(** ** What the specification says, where it differs from the code *)

Module Spec.

(** "The first non-empty line of the raw content": the first of the
    lines that is not the empty string (the empty string when every line
    is). *)
Definition first_non_empty_line (content : string) : string :=
  default "" (head (List.filter (λ line, negb (bool_decide (line = "")))
                                (split LF content))).

End Spec.

(** ** Worlds and hosts of the scenarios *)

Module Scenarios.

(** A project folder with a [.cursorrules] file that holds "A". *)
Definition project : world :=
  mkWorld (list_to_map [ ([], Dir);
                         (["project"], Dir);
                         (["project"; ".cursorrules"], File "A") ])
          [] [] [].

(** A project folder that has no [.cursorrules] file yet. *)
Definition fresh : world :=
  mkWorld (list_to_map [ ([], Dir); (["project"], Dir) ]) [] [] [].

Definition noon : Date := mkDate 2026 11 2 12 0 0 0.

Definition nothing_refused : op → bool := λ _, false.

(** The project folder does not take new entries, its files can be
    written: every copy is refused, nothing else is. *)
Definition no_new_entries : op → bool :=
  λ o, match o with OpCopy _ _ => true | _ => false end.

(** No directory can be created, everything else is allowed. *)
Definition no_new_directories : op → bool :=
  λ o, match o with OpCreateDirectory _ => true | _ => false end.

(** The name and the first place of a backup made at [noon]. *)
Definition backup_at_noon : string :=
  ".cursorrules.2026-11-02T12-00-00-000Z.backup".

Definition beside : path := ["project"; backup_at_noon].

(** [project] once "A" has been copied beside the target. *)
Definition project_with_backup_beside : world :=
  mkWorld (list_to_map [ ([], Dir);
                         (["project"], Dir);
                         (["project"; ".cursorrules"], File "A");
                         (beside, File "A") ])
          [] [] [].

(** [project] once the template [T] has been written over "A". *)
Definition project_replaced : world :=
  mkWorld (list_to_map [ ([], Dir);
                         (["project"], Dir);
                         (["project"; ".cursorrules"], File "Web rules") ])
          ["Template saved successfully"] [] [["project"; ".cursorrules"]].

(** [project] with an earlier backup, "older", already beside the
    target under the name of a backup made at [noon]. *)
Definition project_with_older_backup : world :=
  mkWorld (list_to_map [ ([], Dir);
                         (["project"], Dir);
                         (["project"; ".cursorrules"], File "A");
                         (beside, File "older") ])
          [] [] [].

(** Where the extension is installed, beside the [rules] folder. *)
Definition extensionPath : path := ["repository"; "vscode-extension"].

(** A template whose file starts with an empty line. *)
Definition blank_then_hello : string := String LF "Hello".

Definition library : world :=
  mkWorld (list_to_map [ ([], Dir);
                         (["repository"], Dir);
                         (["repository"; "rules"], Dir);
                         (["repository"; "rules"; "web"], Dir);
                         (["repository"; "rules"; "web"; ".cursorrules"],
                          File blank_then_hello) ])
          [] [] [].

(** One millisecond after [noon]. *)
Definition just_after_noon : Date := mkDate 2026 11 2 12 0 0 1.

(** The first instant of the year 10000. *)
Definition year_10000 : Date := mkDate 10000 1 1 0 0 0 0.

Definition user_at (time : Date) : host :=
  mkHost (Some [["project"]]) (Some "Replace") time nothing_refused.

Definition user (answer : option string) (refused : op → bool) : host :=
  mkHost (Some [["project"]]) answer noon refused.

Definition T : RuleTemplate :=
  mkRuleTemplate "web" "web" "web" "Web rules" "Web rules".

End Scenarios.

(** * What the regular expressions and the schema stand for *)

Module Language.
Import Schema.

(** The strings a regular expression stands for. *)
Inductive lang : regex → string → Prop :=
| lang_Empty : lang Empty ""
| lang_Class member c : member c = true → lang (Class member) (String c "")
| lang_Seq r1 r2 s1 s2 : lang r1 s1 → lang r2 s2 → lang (Seq r1 r2) (s1 +:+ s2)
| lang_Alt_l r1 r2 s : lang r1 s → lang (Alt r1 r2) s
| lang_Alt_r r1 r2 s : lang r2 s → lang (Alt r1 r2) s
| lang_Star_nil r : lang (Star r) ""
| lang_Star_more r s1 s2 : lang r s1 → lang (Star r) s2 → lang (Star r) (s1 +:+ s2).

(** A string of decimal digits, at least one. *)
Definition digits (s : string) : Prop :=
  s ≠ "" ∧
  Forall (λ c, (48 ≤ nat_of_ascii c ≤ 57)%nat) (String.list_ascii_of_string s).

(** Three groups of digits with a dot between them. *)
Definition semver (s : string) : Prop :=
  ∃ major minor patch,
    s = major +:+ "." +:+ minor +:+ "." +:+ patch ∧
    digits major ∧ digits minor ∧ digits patch.

(** The schema file, read as a description of the valid documents. *)

Definition is_string (v : value) : Prop := ∃ s, v = Str s.

Definition is_boolean (v : value) : Prop := ∃ b, v = Bool b.

(** A member that may be missing. *)
Definition optional (P : value → Prop) (member : option value) : Prop :=
  match member with Some v => P v | None => True end.

(** [definitions.rule.properties.fix] *)
Definition valid_fix (v : value) : Prop :=
  ∃ members,
    v = Object members ∧
    (∃ s, get "replace" members = Some (Str s)) ∧
    optional is_string (get "message" members).

(** [definitions.rule] *)
Definition valid_rule (v : value) : Prop :=
  ∃ members,
    v = Object members ∧
    (∃ s, get "id" members = Some (Str s)) ∧
    (∃ level, get "level" members = Some (Str level) ∧
              level ∈ ["error"; "warning"; "info"; "hint"]) ∧
    (∃ s, get "description" members = Some (Str s)) ∧
    optional is_string (get "pattern" members) ∧
    optional valid_fix (get "fix" members) ∧
    optional is_boolean (get "disabled" members).

(** [definitions.languageConfig] *)
Definition valid_language (v : value) : Prop :=
  ∃ members rules,
    v = Object members ∧
    get "rules" members = Some (Array rules) ∧
    Forall valid_rule rules.

(** The root of the schema. *)
Definition valid_document (v : value) : Prop :=
  ∃ members version languages,
    v = Object members ∧
    get "version" members = Some (Str version) ∧
    semver version ∧
    get "languages" members = Some (Object languages) ∧
    Forall (λ language : string * value, valid_language language.2) languages.

End Language.

(** * The characters of a time stamp *)

(** The characters a token is made of. *)
Definition token_char (c : ascii) : Prop :=
  c ∈ ["0"; "1"; "2"; "3"; "4"; "5"; "6"; "7"; "8"; "9"; "-"; "+"; "T"; "Z"]%char.

(** * Well-formed file systems can be recognised *)

#[global] Instance well_formed_dec (fs : gmap path node) : Decision (well_formed fs).
Proof.
  refine (cast_if (decide (map_Forall
                             (λ p _, p ≠ [] → fs !! dirname p = Some Dir) fs)));
    unfold well_formed, map_Forall in *; naive_solver.
Defined.

(** * More scenarios *)

Module MoreScenarios.
Import Scenarios.

(** [library] with a second category directory that holds no template
    file. *)
Definition library_with_empty_category : world :=
  mkWorld (<[ ["repository"; "rules"; "drafts"] := Dir ]> (files library)) [] [] [].

(** [project] once the backup directory has been made. *)
Definition project_with_archive : world :=
  mkWorld (list_to_map [ ([], Dir);
                         (["project"], Dir);
                         (["project"; ".cursorrules"], File "A");
                         (["project"; ".cursorrules-backup"], Dir) ])
          [] [] [].

(** Where a backup made at [noon] goes. *)
Definition archived_at_noon : path := ["project"; ".cursorrules-backup"; backup_at_noon].

(** [project_with_backup_beside] when the backup directory already holds
    a backup, "older", under the name of the backup made at [noon]. *)
Definition project_with_taken_name : world :=
  mkWorld (list_to_map [ ([], Dir);
                         (["project"], Dir);
                         (["project"; ".cursorrules"], File "A");
                         (beside, File "A");
                         (["project"; ".cursorrules-backup"], Dir);
                         (archived_at_noon, File "older") ])
          [] [] [].

(** [project] when a file lies where the backup directory would be. *)
Definition project_with_file_as_archive : world :=
  mkWorld (<[ ["project"; ".cursorrules-backup"] := File "x" ]> (files project))
          [] [] [].

(** [library] with a template file in the rules folder itself. *)
Definition library_with_top_template : world :=
  mkWorld (<[ ["repository"; "rules"; ".cursorrules"] := File "Top" ]>
             (files library))
          [] [] [].

(** [project] with a second file in the folder. *)
Definition project_with_notes : world :=
  mkWorld (<[ ["project"; "notes.md"] := File "notes" ]> (files project)) [] [] [].

End MoreScenarios.

(** * Properties *)

Section save_declined.
Context (h : host) (template : RuleTemplate).

Lemma resolveTargetUri_world targetUri w w' r :
  resolveTargetUri h targetUri w = (w', r) → w' = w.
Proof.
  unfold resolveTargetUri.
  destruct targetUri as [uri|]; [by inversion 1|].
  destruct (workspaceFolders h) as [[|folder rest]|]; by inversion 1.
Qed.

Lemma stat_present uri w :
  is_Some (files w !! uri) → stat uri w = (w, Return ()).
Proof. intros [n Hn]. unfold stat. by rewrite Hn. Qed.

Lemma save_declined targetUri target w :
  resolveTargetUri h targetUri w = (w, Return target) →
  is_Some (files w !! target) →
  choice h ≠ Some "Replace" →
  saveTemplateToWorkspace h template targetUri w = (w, Return ()).
Proof.
  intros Htarget Hexists Hchoice.
  unfold saveTemplateToWorkspace, backupExisting, try_catch, mbind, M_bind.
  rewrite Htarget, (stat_present _ _ Hexists). simpl.
  unfold showWarningMessage, mret, M_ret.
  by destruct (decide (choice h ≠ Some "Replace")).
Qed.
End save_declined.

(** ** The file system operations *)

Section fs_lemmas.
Implicit Types (fs : gmap path node) (p q k : path) (w : world).

Lemma within_true p q : within p q = true ↔ p `prefix_of` q.
Proof. unfold within. apply bool_decide_eq_true. Qed.

Lemma within_false p q : within p q = false ↔ ¬ p `prefix_of` q.
Proof. unfold within. apply bool_decide_eq_false. Qed.

Lemma lookup_prune p fs k :
  prune p fs !! k = if decide (p `prefix_of` k) then None else fs !! k.
Proof.
  unfold prune. destruct (decide (p `prefix_of` k)) as [Hp|Hp].
  - apply map_lookup_filter_None. right. intros x _ Hx. by apply Hx.
  - destruct (fs !! k) as [x|] eqn:Hk.
    + by apply map_lookup_filter_Some.
    + apply map_lookup_filter_None. by left.
Qed.

Lemma lookup_graft_outside source target fs k :
  ¬ target `prefix_of` k → graft source target fs !! k = None.
Proof.
  intros Hk. unfold graft. apply not_elem_of_list_to_map.
  rewrite <- list_fmap_compose. intros Hin.
  apply list_elem_of_fmap in Hin as [[k' n] [-> _]]. simpl in Hk.
  apply Hk. by apply prefix_app_r.
Qed.

Lemma lookup_foldl_insert_dir (l : list path) fs k :
  foldl (λ m q, <[q := Dir]> m) fs l !! k
  = if decide (k ∈ l) then Some Dir else fs !! k.
Proof.
  revert fs. induction l as [|q l IH]; intros fs; simpl; [done|].
  rewrite IH. destruct (decide (k ∈ l)) as [Hl|Hl].
  - rewrite decide_True; [done|]. by right.
  - destruct (decide (k = q)) as [->|Hq].
    + rewrite decide_True by left. by rewrite lookup_insert_eq.
    + rewrite decide_False; [by rewrite lookup_insert_ne|].
      by intros [?|?]%elem_of_cons.
Qed.

Lemma lookup_mkdirp p fs k :
  mkdirp p fs !! k = if decide (k ∈ ancestors p) then Some Dir else fs !! k.
Proof. apply lookup_foldl_insert_dir. Qed.

Lemma no_file_on_spec fs p :
  no_file_on fs p = true ↔ ∀ q c, q ∈ ancestors p → fs !! q ≠ Some (File c).
Proof.
  unfold no_file_on. rewrite forallb_forall. split.
  - intros H q c Hq%list_elem_of_In Hf. specialize (H q Hq). by rewrite Hf in H.
  - intros H q Hq%list_elem_of_In. destruct (fs !! q) as [[c|]|] eqn:E; try done.
    by destruct (H q c Hq).
Qed.

(** Creating directories along a path that no file lies on leaves every
    file where it is. *)
Lemma mkdirp_keeps_files p fs k c :
  no_file_on fs p = true → fs !! k = Some (File c) →
  mkdirp p fs !! k = Some (File c).
Proof.
  intros Hp Hk. rewrite lookup_mkdirp.
  destruct (decide (k ∈ ancestors p)) as [Hin|]; [|done].
  by destruct (proj1 (no_file_on_spec fs p) Hp k c Hin).
Qed.
End fs_lemmas.

Section operations.
Context (h : host).
Implicit Types (w : world) (source target uri : path).

Lemma copy_throws source target overwrite w w' e :
  copy h source target overwrite w = (w', Throw e) → w' = w.
Proof.
  unfold copy. intros H.
  repeat (case_match; simplify_eq; try done).
Qed.

(** A copy that returns has left everything outside the target as it
    was, the source included. *)
Lemma copy_returns source target overwrite w w' :
  copy h source target overwrite w = (w', Return ()) →
  is_Some (files w !! source) ∧
  ¬ source `prefix_of` target ∧ ¬ target `prefix_of` source ∧
  (∀ k, ¬ target `prefix_of` k → files w' !! k = files w !! k) ∧
  (∀ c, files w !! source = Some (File c) → files w' !! target = Some (File c)) ∧
  notifications w' = notifications w ∧ console w' = console w ∧
  editors w' = editors w.
Proof.
  unfold copy.
  destruct (fault h _); [done|].
  destruct (files w !! source) as [n|] eqn:Hsource; [|done].
  destruct (within source target || within target source) eqn:Hwithin; [done|].
  apply orb_false_iff in Hwithin as [Hst%within_false Hts%within_false].
  destruct (negb _); [done|].
  assert (∀ k, ¬ target `prefix_of` k →
            (if files w !! target is Some _ then prune target (files w)
             else files w) !! k = files w !! k) as Hrest.
  { intros k Hk. destruct (files w !! target); [|done].
    rewrite lookup_prune. by rewrite decide_False. }
  assert (∀ rest : gmap path node,
            (with_files w match n with
                          | File c => <[target := File c]> rest
                          | Dir => graft source target (files w) ∪ rest
                          end, Return ()) = (w', Return ()) →
            (∀ k, ¬ target `prefix_of` k → rest !! k = files w !! k) →
            is_Some (Some n) ∧ ¬ source `prefix_of` target ∧
            ¬ target `prefix_of` source ∧
            (∀ k, ¬ target `prefix_of` k → files w' !! k = files w !! k) ∧
            (∀ c, Some n = Some (File c) → files w' !! target = Some (File c)) ∧
            notifications w' = notifications w ∧ console w' = console w ∧
            editors w' = editors w) as Hdone.
  { intros rest Hw Hr. inversion Hw; subst w'; clear Hw. simpl.
    split_and!; try done.
    - intros k Hk. destruct n.
      + rewrite lookup_insert_ne; [by apply Hr|]. by intros ->.
      + rewrite lookup_union_r; [by apply Hr|]. by apply lookup_graft_outside.
    - intros c [= ->]. by rewrite lookup_insert_eq. }
  destruct (files w !! target) as [present|] eqn:Htarget;
    destruct overwrite; try done; intros Hw; by eapply Hdone.
Qed.

Lemma copy_file source target overwrite w c :
  files w !! source = Some (File c) →
  fault h (OpCopy source target) = false →
  ¬ source `prefix_of` target → ¬ target `prefix_of` source →
  is_dir (files w) (dirname target) = true →
  overwrite = true ∨ files w !! target = None →
  copy h source target overwrite w
  = (with_files w (<[target := File c]>
                     (if files w !! target is Some _
                      then prune target (files w) else files w)),
     Return ()).
Proof.
  intros Hsource Hfault Hst%within_false Hts%within_false Hdir Hover.
  unfold copy. rewrite Hfault, Hsource, Hst, Hts, Hdir. simpl.
  destruct Hover as [->| ->]; [|by destruct overwrite].
  by destruct (files w !! target).
Qed.

Lemma delete_throws uri w w' e :
  delete h uri w = (w', Throw e) → w' = w.
Proof. unfold delete. intros H. repeat (case_match; simplify_eq; try done). Qed.

Lemma delete_returns uri w w' :
  delete h uri w = (w', Return ()) →
  w' = with_files w (base.delete uri (files w)).
Proof. unfold delete. intros H. repeat (case_match; simplify_eq; try done). Qed.

Lemma createDirectory_throws uri w w' e :
  createDirectory h uri w = (w', Throw e) → w' = w.
Proof. unfold createDirectory. intros H. repeat (case_match; simplify_eq; try done). Qed.

Lemma createDirectory_returns uri w w' :
  createDirectory h uri w = (w', Return ()) →
  no_file_on (files w) uri = true ∧ w' = with_files w (mkdirp uri (files w)).
Proof. unfold createDirectory. intros H. repeat (case_match; simplify_eq; try done). Qed.

Lemma writeFile_throws uri content w w' e :
  writeFile h uri content w = (w', Throw e) → w' = w.
Proof. unfold writeFile. intros H. repeat (case_match; simplify_eq; try done). Qed.

Lemma writeFile_returns uri content w w' :
  writeFile h uri content w = (w', Return ()) →
  fault h (OpWriteFile uri) = false ∧
  no_file_on (files w) (dirname uri) = true ∧
  w' = with_files w (<[uri := File content]> (mkdirp (dirname uri) (files w))).
Proof. unfold writeFile. intros H. repeat (case_match; simplify_eq; try done). Qed.
End operations.

Section backup_directory.
Context (h : host).
Implicit Types (w : world) (backupUri : path).

Lemma copy_returns_file source target overwrite w w' c :
  copy h source target overwrite w = (w', Return ()) →
  files w !! source = Some (File c) →
  (overwrite = true ∨ files w !! target = None) ∧
  w' = with_files w (<[target := File c]>
                       (if files w !! target is Some _
                        then prune target (files w) else files w)).
Proof.
  unfold copy. intros H Hsource. rewrite Hsource in H.
  repeat (case_match; simplify_eq; try done); auto.
Qed.

(** Making sure that the backup directory is there moves no file and
    shows nothing. *)
Lemma ensureBackupDirectory_spec folder w w1 r :
  ensureBackupDirectory h folder w = (w1, r) →
  (∀ k c, files w !! k = Some (File c) → files w1 !! k = Some (File c)) ∧
  (∀ k, files w1 !! k = None → files w !! k = None) ∧
  notifications w1 = notifications w ∧ console w1 = console w ∧
  editors w1 = editors w ∧
  (r = Return (backupDirectory folder) ∨ (∃ e, r = Throw e) ∧ w1 = w).
Proof.
  unfold ensureBackupDirectory, try_catch, mbind, M_bind, mret, M_ret.
  destruct (stat (backupDirectory folder) w) as [w0 [[]|e0]] eqn:Hstat.
  - assert (w0 = w) as ->.
    { unfold stat in Hstat. by repeat (case_match; simplify_eq). }
    intros [= <- <-]. split_and!; auto.
  - assert (w0 = w) as ->.
    { unfold stat in Hstat. by repeat (case_match; simplify_eq). }
    destruct (createDirectory h (backupDirectory folder) w) as [w2 [[]|e]] eqn:Hmk.
    + apply createDirectory_returns in Hmk as [Hfree ->].
      intros [= <- <-]. simpl. split_and!; auto.
      * intros k c Hk. by apply mkdirp_keeps_files.
      * intros k. rewrite lookup_mkdirp. by case_decide.
    + apply createDirectory_throws in Hmk as ->.
      intros [= <- <-]. split_and!; eauto.
Qed.

(** [moveToBackupDirectory] never throws.  Of a backup file it either
    makes a file of the same content and name in the backup directory
    and removes the original, or it writes a line to the console and
    leaves the backup where it is.  No other file changes. *)
Lemma moveToBackupDirectory_spec backupUri w c :
  files w !! backupUri = Some (File c) →
  ∃ w', moveToBackupDirectory h backupUri w = (w', Return ()) ∧
    notifications w' = notifications w ∧ editors w' = editors w ∧
    (∀ k c', k ≠ backupUri → files w !! k = Some (File c') →
             files w' !! k = Some (File c')) ∧
    ((console w' = console w ∧ files w' !! backupUri = None ∧
      ∃ folder others fileName,
        workspaceFolders h = Some (folder :: others) ∧
        pop backupUri = Some fileName ∧
        files w !! joinPath (backupDirectory folder) fileName = None ∧
        files w' !! joinPath (backupDirectory folder) fileName = Some (File c))
     ∨ ((∃ line, console w' = console w ++ [line]) ∧
        files w' !! backupUri = Some (File c))).
Proof.
  intros Hbackup.
  unfold moveToBackupDirectory, try_catch, mbind, M_bind.
  assert (∀ w1 e,
            (∀ k c, files w !! k = Some (File c) → files w1 !! k = Some (File c)) →
            notifications w1 = notifications w → console w1 = console w →
            editors w1 = editors w →
            ∃ w', console_error ("Failed to move backup file: " +:+ message e) w1
                  = (w', Return ()) ∧
              notifications w' = notifications w ∧ editors w' = editors w ∧
              (∀ k c', k ≠ backupUri → files w !! k = Some (File c') →
                       files w' !! k = Some (File c')) ∧
              ((console w' = console w ∧ files w' !! backupUri = None ∧
                ∃ folder others fileName,
                  workspaceFolders h = Some (folder :: others) ∧
                  pop backupUri = Some fileName ∧
                  files w !! joinPath (backupDirectory folder) fileName = None ∧
                  files w' !! joinPath (backupDirectory folder) fileName
                  = Some (File c))
               ∨ ((∃ line, console w' = console w ++ [line]) ∧
                  files w' !! backupUri = Some (File c)))) as Hfailed.
  { intros w1 e Hfiles Hn Hc He. eexists. split; [done|]. simpl.
    split_and!; auto. right. rewrite Hc. eauto. }
  destruct (workspaceFolders h) as [[|folder others]|] eqn:Hfolders;
    try (by apply Hfailed).
  unfold mret at 1, M_ret at 1.
  destruct (ensureBackupDirectory h folder w) as [w1 r1] eqn:Hensure.
  apply ensureBackupDirectory_spec in Hensure
    as (Hfiles1 & Hnone1 & Hn1 & Hc1 & He1 & [->|[[e ->] ->]]);
    [|by apply Hfailed].
  destruct (pop backupUri) as [fileName|] eqn:Hpop;
    [|by apply Hfailed].
  destruct (decide (fileName = "")); [by apply Hfailed|].
  unfold mret at 1, M_ret at 1.
  destruct (copy h backupUri (joinPath (backupDirectory folder) fileName) false w1)
    as [w2 [[]|e2]] eqn:Hcopy.
  2: { apply copy_throws in Hcopy as ->. by apply Hfailed. }
  pose proof (Hfiles1 _ _ Hbackup) as Hbackup1.
  destruct (copy_returns _ _ _ _ _ _ Hcopy)
    as (_ & Hst & Hts & _ & _ & Hn2 & Hc2 & He2).
  destruct (copy_returns_file _ _ _ _ _ _ Hcopy Hbackup1) as [[?| Hfree] ->];
    [done|].
  rewrite Hfree in *. simpl in *.
  assert (joinPath (backupDirectory folder) fileName ≠ backupUri) as Hne.
  { intros Heq. apply Hst. by rewrite Heq. }
  destruct (delete h backupUri _) as [w3 [[]|e3]] eqn:Hdelete.
  - apply delete_returns in Hdelete as ->. simpl.
    eexists. split; [done|]. simpl. split_and!; try congruence.
    + intros k c' Hk Hkc. rewrite lookup_delete_ne by done.
      rewrite lookup_insert_ne; [by apply Hfiles1|].
      intros <-. apply Hfiles1 in Hkc. congruence.
    + left. split_and!; [congruence|by rewrite lookup_delete_eq|].
      exists folder, others, fileName. split_and!; try done.
      * by apply Hnone1.
      * rewrite lookup_delete_ne by done. by rewrite lookup_insert_eq.
  - apply delete_throws in Hdelete as ->.
    apply Hfailed; simpl; try congruence.
    intros k c' Hk. rewrite lookup_insert_ne; [by apply Hfiles1|].
    intros <-. apply Hfiles1 in Hk. congruence.
Qed.
End backup_directory.

Section save.
Context (h : host) (template : RuleTemplate).
Implicit Types (w : world) (target : path).

Lemma moveToBackupDirectory_never_throws backupUri w :
  ∃ w', moveToBackupDirectory h backupUri w = (w', Return ()).
Proof.
  unfold moveToBackupDirectory, try_catch.
  match goal with |- context [match ?body w with _ => _ end] =>
    destruct (body w) as [w1 [[]|e]] end; eauto.
Qed.

(** Once the user has confirmed: the copy beside the target, then the
    move; what the copy throws is caught and the block goes on. *)
Lemma backupExisting_confirmed target w :
  is_Some (files w !! target) →
  choice h = Some "Replace" →
  backupExisting h target w
  = match copy h target (siblingBackupUri h target) true w with
    | (w1, Return _) =>
        ((moveToBackupDirectory h (siblingBackupUri h target) w1).1, Return false)
    | (w1, Throw _) => (w1, Return false)
    end.
Proof.
  intros Hexists Hchoice.
  unfold backupExisting, try_catch, mbind, M_bind.
  rewrite (stat_present _ _ Hexists). simpl.
  unfold showWarningMessage, mret, M_ret. rewrite Hchoice.
  rewrite decide_False by (by intros []).
  destruct (copy h target _ true w) as [w1 [[]|e]]; [|done].
  by destruct (moveToBackupDirectory_never_throws (siblingBackupUri h target) w1)
    as [w2 ->].
Qed.

Lemma backupExisting_absent target w :
  files w !! target = None → backupExisting h target w = (w, Return false).
Proof.
  intros Habsent. unfold backupExisting, try_catch, mbind, M_bind, stat.
  by rewrite Habsent.
Qed.

Lemma save_continues targetUri target w w2 :
  resolveTargetUri h targetUri w = (w, Return target) →
  backupExisting h target w = (w2, Return false) →
  saveTemplateToWorkspace h template targetUri w
  = match writeAndOpen h target (content template) w2 with
    | (w3, Return _) => (w3, Return ())
    | (w3, Throw e) =>
        (w3, Throw (Error ("Failed to save template: " +:+ message e)))
    end.
Proof.
  intros Htarget Hblock.
  unfold saveTemplateToWorkspace, try_catch, mbind at 1, M_bind at 1.
  rewrite Htarget. unfold mbind at 1, M_bind at 1. rewrite Hblock.
  unfold convertTemplateContent.
  by destruct (writeAndOpen h target (content template) w2) as [w3 [[]|e]].
Qed.

(** A write that the environment does not refuse, on a path that no
    file lies on, puts the content there and opens it. *)
Lemma writeAndOpen_returns target text w :
  fault h (OpWriteFile target) = false →
  fault h (OpOpenTextDocument target) = false →
  is_dir (files w) target = false →
  no_file_on (files w) (dirname target) = true →
  writeAndOpen h target text w
  = (mkWorld (<[target := File text]> (mkdirp (dirname target) (files w)))
             (notifications w ++ ["Template saved successfully"])
             (console w) (editors w ++ [target]),
     Return ()).
Proof.
  intros Hwrite Hopen Hdir Hfree.
  unfold writeAndOpen, mbind, M_bind, writeFile, openTextDocument.
  rewrite Hwrite, Hdir, Hfree. simpl. rewrite Hopen.
  by rewrite lookup_insert_eq.
Qed.

(** Either the write throws and nothing has changed, or the content is
    in place and the message is shown (the editor may still fail). *)
Lemma writeAndOpen_spec target text w w' r :
  writeAndOpen h target text w = (w', r) →
  (w' = w ∧ ∃ e, r = Throw e)
  ∨ (files w' = <[target := File text]> (mkdirp (dirname target) (files w)) ∧
     no_file_on (files w) (dirname target) = true ∧
     notifications w' = notifications w ++ ["Template saved successfully"] ∧
     console w' = console w).
Proof.
  unfold writeAndOpen, mbind, M_bind.
  destruct (writeFile h target _ w) as [w1 [[]|e]] eqn:Hwrite.
  - apply writeFile_returns in Hwrite as (_ & Hfree & ->).
    unfold showInformationMessage, openTextDocument, showTextDocument. simpl.
    intros H. right.
    repeat (case_match; simplify_eq; try done); simpl; auto.
  - apply writeFile_throws in Hwrite as ->. intros [= <- <-]. left. eauto.
Qed.
End save.

(** * The claims about [saveTemplateToWorkspace] *)

(** ** Declining the replacement *)

(** C4. When the target exists and the user answers Cancel, the save is a
    no-op: it returns without an error, the world it leaves is the one it
    found, so the target's content is unchanged, no file (hence no
    backup) has been created, the listing of every backup directory is
    the same, and no success message is shown. *)
Theorem cancel_is_a_no_op h template targetUri target w :
  resolveTargetUri h targetUri w = (w, Return target) →
  is_Some (files w !! target) →
  choice h = Some "Cancel" →
  ∃ w', saveTemplateToWorkspace h template targetUri w = (w', Return ()) ∧
    w' = w ∧
    files w' !! target = files w !! target ∧
    (∀ folder, listing (files w') (backupDirectory folder)
               = listing (files w) (backupDirectory folder)) ∧
    notifications w' = notifications w.
Proof.
  intros Htarget Hexists Hchoice. exists w.
  split; [|done].
  apply (save_declined h template targetUri target w Htarget Hexists).
  by rewrite Hchoice.
Qed.

(** C10. When the target exists, every answer other than exactly
    'Replace', a dismissed prompt included, makes the save return with
    the world as it found it: no backup, no change of the target. *)
Theorem only_replace_proceeds h template targetUri target w :
  resolveTargetUri h targetUri w = (w, Return target) →
  is_Some (files w !! target) →
  choice h ≠ Some "Replace" →
  saveTemplateToWorkspace h template targetUri w = (w, Return ()).
Proof. apply save_declined. Qed.

Lemma cancel_is_a_no_op_witness :
  ∃ w', saveTemplateToWorkspace (Scenarios.user (Some "Cancel") Scenarios.nothing_refused)
          Scenarios.T None Scenarios.project = (w', Return ()) ∧
    w' = Scenarios.project ∧
    files w' !! ["project"; ".cursorrules"]
    = files Scenarios.project !! ["project"; ".cursorrules"] ∧
    (∀ folder, listing (files w') (backupDirectory folder)
               = listing (files Scenarios.project) (backupDirectory folder)) ∧
    notifications w' = notifications Scenarios.project.
Proof.
  apply (cancel_is_a_no_op _ Scenarios.T None ["project"; ".cursorrules"]).
  - reflexivity.
  - exists (File "A"). vm_compute. reflexivity.
  - reflexivity.
Defined.

Lemma only_replace_proceeds_witness :
  saveTemplateToWorkspace (Scenarios.user None Scenarios.nothing_refused)
    Scenarios.T None Scenarios.project
  = (Scenarios.project, Return ()).
Proof.
  apply (only_replace_proceeds _ Scenarios.T None ["project"; ".cursorrules"]).
  - reflexivity.
  - exists (File "A"). vm_compute. reflexivity.
  - simpl. discriminate.
Defined.

(** ** The move into the backup directory *)

(** C5. Once the backup beside the target is made, moving it into the
    backup directory never throws.  Either the move has succeeded and
    the backup is in the backup directory under its name, or a line is
    written to the console and the backup file is still beside the target
    with its content: it is never dropped.  Whatever the move did, the
    save goes on with the write: it fails only if the write or the editor
    does. *)
Theorem failed_move_keeps_backup h template targetUri target w w1 c :
  resolveTargetUri h targetUri w = (w, Return target) →
  files w !! target = Some (File c) →
  choice h = Some "Replace" →
  copy h target (siblingBackupUri h target) true w = (w1, Return ()) →
  ∃ w2,
    moveToBackupDirectory h (siblingBackupUri h target) w1 = (w2, Return ()) ∧
    ((console w2 = console w1 ∧
      ∃ folder others,
        workspaceFolders h = Some (folder :: others) ∧
        files w2 !! joinPath (backupDirectory folder) (backupFileName h)
        = Some (File c))
     ∨ ((∃ line, console w2 = console w1 ++ [line]) ∧
        files w2 !! siblingBackupUri h target = Some (File c))) ∧
    saveTemplateToWorkspace h template targetUri w
    = match writeAndOpen h target (content template) w2 with
      | (w3, Return _) => (w3, Return ())
      | (w3, Throw e) =>
          (w3, Throw (Error ("Failed to save template: " +:+ message e)))
      end.
Proof.
  intros Htarget Hfile Hchoice Hcopy.
  destruct (copy_returns _ _ _ _ _ _ Hcopy) as (_ & _ & _ & _ & Hbackup & _).
  specialize (Hbackup c Hfile).
  destruct (moveToBackupDirectory_spec h _ w1 c Hbackup)
    as (w2 & Hmove & _ & _ & _ & Hcases).
  exists w2. split_and!; [done| |].
  - destruct Hcases
      as [(? & _ & folder & others & fileName & ? & Hpop & _ & ?)|[? ?]];
      [left|by right].
    split; [done|]. exists folder, others. split; [done|].
    unfold siblingBackupUri, joinPath, pop in Hpop.
    rewrite last_snoc in Hpop. by injection Hpop as <-.
  - apply save_continues; [done|].
    rewrite backupExisting_confirmed by (by rewrite ?Hfile).
    by rewrite Hcopy, Hmove.
Qed.

(** ** A backup that fails *)

(** C2 (the code does otherwise). When the copy beside the target
    throws, the exception is caught by the [catch] meant for a missing
    file and the save goes on: where the write is not refused, the
    target's content is replaced and the save reports success. *)
Theorem a_failed_backup_does_not_stop_the_write h template targetUri target w c e :
  resolveTargetUri h targetUri w = (w, Return target) →
  files w !! target = Some (File c) →
  choice h = Some "Replace" →
  copy h target (siblingBackupUri h target) true w = (w, Throw e) →
  fault h (OpWriteFile target) = false →
  fault h (OpOpenTextDocument target) = false →
  no_file_on (files w) (dirname target) = true →
  ∃ w', saveTemplateToWorkspace h template targetUri w = (w', Return ()) ∧
    files w' !! target = Some (File (content template)) ∧
    notifications w' = notifications w ++ ["Template saved successfully"].
Proof.
  intros Htarget Hfile Hchoice Hcopy Hwrite Hopen Hfree.
  eexists. split.
  - rewrite (save_continues h template targetUri target w w Htarget).
    + rewrite writeAndOpen_returns; try done.
      unfold is_dir. by rewrite Hfile.
    + rewrite backupExisting_confirmed by (by rewrite ?Hfile).
      by rewrite Hcopy.
  - simpl. by rewrite lookup_insert_eq.
Qed.

Lemma a_failed_backup_does_not_stop_the_write_witness :
  ∃ w', saveTemplateToWorkspace (Scenarios.user (Some "Replace") Scenarios.no_new_entries)
          Scenarios.T None Scenarios.project = (w', Return ()) ∧
    files w' !! ["project"; ".cursorrules"] = Some (File (content Scenarios.T)) ∧
    notifications w'
    = notifications Scenarios.project ++ ["Template saved successfully"].
Proof.
  apply (a_failed_backup_does_not_stop_the_write
           (Scenarios.user (Some "Replace") Scenarios.no_new_entries)
           Scenarios.T None ["project"; ".cursorrules"] Scenarios.project
           "A" (FsError NoPermissions)).
  - reflexivity.
  - vm_compute. reflexivity.
  - reflexivity.
  - vm_compute. reflexivity.
  - reflexivity.
  - reflexivity.
  - vm_compute. reflexivity.
Defined.

Lemma failed_move_keeps_backup_witness :
  ∃ w2,
    moveToBackupDirectory (Scenarios.user (Some "Replace") Scenarios.no_new_directories)
      (siblingBackupUri (Scenarios.user (Some "Replace") Scenarios.no_new_directories)
         ["project"; ".cursorrules"])
      Scenarios.project_with_backup_beside = (w2, Return ()) ∧
    ((console w2 = console Scenarios.project_with_backup_beside ∧
      ∃ folder others,
        workspaceFolders (Scenarios.user (Some "Replace") Scenarios.no_new_directories)
        = Some (folder :: others) ∧
        files w2 !! joinPath (backupDirectory folder)
                      (backupFileName
                         (Scenarios.user (Some "Replace") Scenarios.no_new_directories))
        = Some (File "A"))
     ∨ ((∃ line, console w2 = console Scenarios.project_with_backup_beside ++ [line]) ∧
        files w2 !! siblingBackupUri
                      (Scenarios.user (Some "Replace") Scenarios.no_new_directories)
                      ["project"; ".cursorrules"] = Some (File "A"))) ∧
    saveTemplateToWorkspace (Scenarios.user (Some "Replace") Scenarios.no_new_directories)
      Scenarios.T None Scenarios.project
    = match writeAndOpen (Scenarios.user (Some "Replace") Scenarios.no_new_directories)
              ["project"; ".cursorrules"] (content Scenarios.T) w2 with
      | (w3, Return _) => (w3, Return ())
      | (w3, Throw e) =>
          (w3, Throw (Error ("Failed to save template: " +:+ message e)))
      end.
Proof.
  apply (failed_move_keeps_backup
           (Scenarios.user (Some "Replace") Scenarios.no_new_directories)
           Scenarios.T None ["project"; ".cursorrules"] Scenarios.project
           Scenarios.project_with_backup_beside "A").
  - reflexivity.
  - vm_compute. reflexivity.
  - reflexivity.
  - vm_compute. reflexivity.
Defined.

(** The scenario of the witness, run: no directory can be created, the
    move fails, the backup stays beside the target and the save
    succeeds. *)
Example save_with_a_failed_move :
  saveTemplateToWorkspace (Scenarios.user (Some "Replace") Scenarios.no_new_directories)
    Scenarios.T None Scenarios.project
  = (mkWorld (list_to_map [ ([], Dir);
                            (["project"], Dir);
                            (["project"; ".cursorrules"], File "Web rules");
                            (Scenarios.beside, File "A") ])
             ["Template saved successfully"]
             ["Failed to move backup file: NoPermissions"]
             [["project"; ".cursorrules"]],
     Return ()).
Proof. vm_compute. reflexivity. Qed.

(** The second scenario of the specification, run: nothing is refused,
    the backup directory holds "A" under the backup's name and the
    target holds the template. *)
Example save_with_a_backup :
  saveTemplateToWorkspace (Scenarios.user (Some "Replace") Scenarios.nothing_refused)
    Scenarios.T None Scenarios.project
  = (mkWorld (list_to_map [ ([], Dir);
                            (["project"], Dir);
                            (["project"; ".cursorrules"], File "Web rules");
                            (["project"; ".cursorrules-backup"], Dir);
                            (["project"; ".cursorrules-backup";
                              Scenarios.backup_at_noon], File "A") ])
             ["Template saved successfully"] []
             [["project"; ".cursorrules"]],
     Return ()).
Proof. vm_compute. reflexivity. Qed.

(** ** No silent loss *)

(** C1 (the code does otherwise). The project folder takes no new
    entries, its files can be written, and the user answers Replace: the
    copy beside the target is refused, the [catch] for a missing file
    swallows the refusal, and the write goes through.  The save reports
    success, the target holds the template, and no file anywhere holds
    the document "A" that was there. *)
Theorem document_replaced_without_backup :
  saveTemplateToWorkspace
    (Scenarios.user (Some "Replace") Scenarios.no_new_entries)
    Scenarios.T None Scenarios.project
  = (Scenarios.project_replaced, Return ()) ∧
  files Scenarios.project !! ["project"; ".cursorrules"] = Some (File "A") ∧
  files Scenarios.project_replaced !! ["project"; ".cursorrules"]
  = Some (File "Web rules") ∧
  (∀ p, files Scenarios.project_replaced !! p ≠ Some (File "A")) ∧
  notifications Scenarios.project_replaced = ["Template saved successfully"].
Proof.
  split_and!; try (vm_compute; reflexivity).
  assert (map_Forall (λ _ n, n ≠ File "A") (files Scenarios.project_replaced))
    as Hall by (refine (bool_decide_unpack _ _); vm_compute; exact I).
  intros p Hp. by apply (map_Forall_lookup_1 _ _ _ _ Hall Hp).
Qed.

(** ** The content that is written *)

Section written_content.
Context (h : host) (template : RuleTemplate).

Lemma backupExisting_never_throws target w :
  ∃ w2 returned, backupExisting h target w = (w2, Return returned).
Proof.
  unfold backupExisting, try_catch.
  match goal with |- context [match ?body w with _ => _ end] =>
    destruct (body w) as [w1 [b|e]] end; eauto.
Qed.

(** The block returns from the function only for a target that is there
    and an answer other than Replace. *)
Lemma backupExisting_true target w w2 :
  backupExisting h target w = (w2, Return true) →
  w2 = w ∧ is_Some (files w !! target) ∧ choice h ≠ Some "Replace".
Proof.
  unfold backupExisting, try_catch, mbind, M_bind, stat, showWarningMessage.
  destruct (files w !! target) eqn:Hthere; [|by intros [= <-]].
  unfold mret at 1, M_ret at 1.
  destruct (decide (choice h ≠ Some "Replace")); [by intros [= <-]|].
  destruct (copy h target _ true w) as [w1 [[]|e]]; [|by intros [= <-]].
  destruct (moveToBackupDirectory_never_throws h (siblingBackupUri h target) w1)
    as [w3 ->].
  by intros [= _ ?].
Qed.

(** Neither the move nor the whole block shows a message. *)
Lemma moveToBackupDirectory_messages backupUri w w' r :
  moveToBackupDirectory h backupUri w = (w', r) →
  notifications w' = notifications w.
Proof.
  unfold moveToBackupDirectory, ensureBackupDirectory, try_catch, mbind, M_bind,
    mret, M_ret, throw, console_error, stat, copy, delete, createDirectory,
    with_files.
  intros H. repeat (case_match; simplify_eq; simpl in *; try done).
Qed.

Lemma backupExisting_messages target w w2 r :
  backupExisting h target w = (w2, r) → notifications w2 = notifications w.
Proof.
  unfold backupExisting, try_catch, mbind, M_bind, stat, showWarningMessage.
  destruct (files w !! target); [|by intros [= <- _]].
  unfold mret at 1, M_ret at 1.
  destruct (decide (choice h ≠ Some "Replace")); [by intros [= <- _]|].
  destruct (copy h target _ true w) as [w1 [[]|e]] eqn:Hcopy.
  - apply copy_returns in Hcopy as (_ & _ & _ & _ & _ & Hsame & _).
    destruct (moveToBackupDirectory h (siblingBackupUri h target) w1)
      as [w3 [[]|e]] eqn:Hmove;
      apply moveToBackupDirectory_messages in Hmove;
      intros [= <- _]; congruence.
  - apply copy_throws in Hcopy as ->. by intros [= <- _].
Qed.

(** What a save leaves at the target: it was declined and nothing has
    changed, or the target holds the template's content, or the write
    of that content has thrown. *)
Lemma save_outcomes targetUri target w w' r :
  resolveTargetUri h targetUri w = (w, Return target) →
  saveTemplateToWorkspace h template targetUri w = (w', r) →
  (w' = w ∧ r = Return () ∧
   is_Some (files w !! target) ∧ choice h ≠ Some "Replace")
  ∨ (files w' !! target = Some (File (content template)) ∧
     notifications w' = notifications w ++ ["Template saved successfully"])
  ∨ (∃ e,
       writeFile h target (content template) w' = (w', Throw e) ∧
       r = Throw (Error ("Failed to save template: " +:+ message e)) ∧
       notifications w' = notifications w).
Proof.
  intros Htarget Hsave.
  destruct (backupExisting_never_throws target w) as (w2 & returned & Hblock).
  destruct returned.
  - left. destruct (backupExisting_true _ _ _ Hblock) as (-> & Hthere & Hchoice).
    revert Hsave.
    unfold saveTemplateToWorkspace, try_catch, mbind at 1, M_bind at 1.
    rewrite Htarget. unfold mbind at 1, M_bind at 1. rewrite Hblock.
    by intros [= <- <-].
  - right.
    pose proof (backupExisting_messages _ _ _ _ Hblock) as Hquiet.
    rewrite (save_continues h template targetUri target w w2 Htarget Hblock)
      in Hsave.
    revert Hsave. unfold writeAndOpen, mbind, M_bind.
    destruct (writeFile h target (content template) w2) as [w3 [[]|e]] eqn:Hwrite.
    + apply writeFile_returns in Hwrite as (_ & _ & ->).
      intros Hsave. left.
      unfold showInformationMessage, openTextDocument, showTextDocument,
        with_files in Hsave. simpl in Hsave.
      rewrite lookup_insert_eq in Hsave.
      destruct (fault h (OpOpenTextDocument target));
        injection Hsave as <- <-; simpl; rewrite lookup_insert_eq, Hquiet; done.
    + pose proof (writeFile_throws _ _ _ _ _ _ Hwrite) as ->.
      intros [= <- <-]. right. exists e. by rewrite Hwrite.
Qed.
End written_content.


(** C9. [convertTemplateContent] is a total function on strings, it is
    idempotent, it is the identity, and what a save writes is the
    template's raw content: however the save ends, either it was
    declined and nothing has changed, or the target holds the template's
    raw content and the success message has been shown, or the write of
    the template's raw content has thrown and the save has thrown with
    it. *)
Theorem convertTemplateContent_identity :
  (∀ s, convertTemplateContent (convertTemplateContent s)
        = convertTemplateContent s) ∧
  (∀ s, convertTemplateContent s = s) ∧
  (∀ h template targetUri target w w' r,
     resolveTargetUri h targetUri w = (w, Return target) →
     saveTemplateToWorkspace h template targetUri w = (w', r) →
     (w' = w ∧ r = Return () ∧
      is_Some (files w !! target) ∧ choice h ≠ Some "Replace")
     ∨ (files w' !! target = Some (File (content template)) ∧
        notifications w' = notifications w ++ ["Template saved successfully"])
     ∨ (∃ e,
          writeFile h target (content template) w' = (w', Throw e) ∧
          r = Throw (Error ("Failed to save template: " +:+ message e)) ∧
          notifications w' = notifications w)).
Proof. split_and!; [done|done|apply save_outcomes]. Qed.

Lemma convertTemplateContent_identity_witness :
  (Scenarios.project_replaced = Scenarios.fresh ∧ Return () = Return () ∧
   is_Some (files Scenarios.fresh !! ["project"; ".cursorrules"]) ∧
   choice (Scenarios.user None Scenarios.nothing_refused) ≠ Some "Replace")
  ∨ (files Scenarios.project_replaced !! ["project"; ".cursorrules"]
     = Some (File (content Scenarios.T)) ∧
     notifications Scenarios.project_replaced
     = notifications Scenarios.fresh ++ ["Template saved successfully"])
  ∨ (∃ e,
       writeFile (Scenarios.user None Scenarios.nothing_refused)
         ["project"; ".cursorrules"] (content Scenarios.T)
         Scenarios.project_replaced
       = (Scenarios.project_replaced, Throw e) ∧
       Return () = Throw (Error ("Failed to save template: " +:+ message e)) ∧
       notifications Scenarios.project_replaced = notifications Scenarios.fresh).
Proof.
  apply (proj2 (proj2 convertTemplateContent_identity)
           (Scenarios.user None Scenarios.nothing_refused)
           Scenarios.T None ["project"; ".cursorrules"] Scenarios.fresh).
  - reflexivity.
  - vm_compute. reflexivity.
Defined.

(** ** The copy beside the target *)

Section beside_the_target.
Context (h : host).

Lemma sibling_not_within target :
  target ≠ [] → pop target ≠ Some (backupFileName h) →
  ¬ target `prefix_of` siblingBackupUri h target ∧
  ¬ siblingBackupUri h target `prefix_of` target.
Proof.
  intros Hnil Hname.
  destruct (exists_last Hnil) as (dir & x & ->).
  unfold siblingBackupUri, dirname, joinPath, pop in *.
  rewrite removelast_last. rewrite last_snoc in Hname.
  assert (x ≠ backupFileName h) as Hx by congruence.
  split; intros Hprefix.
  - apply prefix_app_inv in Hprefix.
    apply prefix_cons_inv_1 in Hprefix. done.
  - apply prefix_app_inv in Hprefix.
    apply prefix_cons_inv_1 in Hprefix. done.
Qed.
End beside_the_target.

(** C3, as the code has it. The copy beside the target is made with
    [overwrite: true]: where the environment does not refuse it, it
    returns, and the place beside the target then holds the target's
    content, whatever occupied that name before; the target keeps its
    content and the confirmed save goes on to the move. *)
Theorem backup_copy_overwrites h target w c :
  files w !! target = Some (File c) →
  choice h = Some "Replace" →
  fault h (OpCopy target (siblingBackupUri h target)) = false →
  pop target ≠ Some (backupFileName h) →
  is_dir (files w) (dirname target) = true →
  ∃ w1,
    copy h target (siblingBackupUri h target) true w = (w1, Return ()) ∧
    files w1 !! siblingBackupUri h target = Some (File c) ∧
    files w1 !! target = Some (File c) ∧
    backupExisting h target w
    = ((moveToBackupDirectory h (siblingBackupUri h target) w1).1, Return false).
Proof.
  intros Hfile Hchoice Hfault Hname Hdir.
  assert (target ≠ []) as Hnil.
  { intros ->. unfold is_dir, dirname in Hdir. simpl in Hdir.
    by rewrite Hfile in Hdir. }
  destruct (sibling_not_within h target Hnil Hname) as [Hst Hts].
  assert (dirname (siblingBackupUri h target) = dirname target) as Hparent.
  { unfold siblingBackupUri, joinPath, dirname. by rewrite removelast_last. }
  eexists. split; [|split_and!].
  - apply copy_file; try done; [by rewrite Hparent|by left].
  - simpl. by rewrite lookup_insert_eq.
  - simpl. rewrite lookup_insert_ne by (by intros Heq; apply Hst; rewrite Heq).
    destruct (files w !! siblingBackupUri h target); [|done].
    rewrite lookup_prune. by rewrite decide_False.
  - rewrite backupExisting_confirmed by (by rewrite ?Hfile).
    by rewrite (copy_file h target _ true w c Hfile Hfault Hst Hts)
      by (by rewrite ?Hparent; auto).
Qed.

(** C3, as stated, fails: a file "older" occupies the very name of the
    backup; the copy does not fail, it returns, and afterwards that place
    holds "A" and no file holds "older". *)
Lemma older_backup_is_overwritten :
  files Scenarios.project_with_older_backup !! Scenarios.beside
  = Some (File "older") ∧
  siblingBackupUri (Scenarios.user (Some "Replace") Scenarios.nothing_refused)
    ["project"; ".cursorrules"] = Scenarios.beside ∧
  copy (Scenarios.user (Some "Replace") Scenarios.nothing_refused)
    ["project"; ".cursorrules"] Scenarios.beside true
    Scenarios.project_with_older_backup
  = (Scenarios.project_with_backup_beside, Return ()) ∧
  files Scenarios.project_with_backup_beside !! Scenarios.beside
  = Some (File "A") ∧
  (∀ p, files Scenarios.project_with_backup_beside !! p ≠ Some (File "older")).
Proof.
  split_and!; try (vm_compute; reflexivity).
  assert (map_Forall (λ _ n, n ≠ File "older")
            (files Scenarios.project_with_backup_beside))
    as Hall by (refine (bool_decide_unpack _ _); vm_compute; exact I).
  intros p Hp. by apply (map_Forall_lookup_1 _ _ _ _ Hall Hp).
Qed.

Lemma backup_copy_overwrites_witness :
  ∃ w1,
    copy (Scenarios.user (Some "Replace") Scenarios.nothing_refused)
      ["project"; ".cursorrules"]
      (siblingBackupUri (Scenarios.user (Some "Replace") Scenarios.nothing_refused)
         ["project"; ".cursorrules"])
      true Scenarios.project_with_older_backup = (w1, Return ()) ∧
    files w1 !! siblingBackupUri
                  (Scenarios.user (Some "Replace") Scenarios.nothing_refused)
                  ["project"; ".cursorrules"] = Some (File "A") ∧
    files w1 !! ["project"; ".cursorrules"] = Some (File "A") ∧
    backupExisting (Scenarios.user (Some "Replace") Scenarios.nothing_refused)
      ["project"; ".cursorrules"] Scenarios.project_with_older_backup
    = ((moveToBackupDirectory
          (Scenarios.user (Some "Replace") Scenarios.nothing_refused)
          (siblingBackupUri
             (Scenarios.user (Some "Replace") Scenarios.nothing_refused)
             ["project"; ".cursorrules"]) w1).1, Return false).
Proof.
  apply (backup_copy_overwrites
           (Scenarios.user (Some "Replace") Scenarios.nothing_refused)
           ["project"; ".cursorrules"] Scenarios.project_with_older_backup "A").
  - vm_compute. reflexivity.
  - reflexivity.
  - reflexivity.
  - vm_compute. discriminate.
  - vm_compute. reflexivity.
Defined.

(** * The template repository *)

Lemma split_first sep s : split sep s !! 0%nat = Some (before sep s).
Proof.
  induction s as [|c r IH]; simpl; [done|].
  destruct (decide (c = sep)); [done|].
  destruct (split sep r) as [|piece pieces]; [done|].
  simpl in *. congruence.
Qed.

(** C6, as the code has it. Listing the templates of a category whose
    [.cursorrules] file can be read returns exactly one template; its id,
    name and category are the category's name, its content is the file's
    text, and its description is the text before the first line feed
    with the white space at both ends removed.  When that path holds no
    file the call throws, and so it does when the category's directory
    is missing.  The category's directory is [path.join] of the rules
    folder and the category, whatever the shape of the category. *)
Theorem getTemplatesInCategory_spec extensionPath category w :
  (∀ text,
     files w !! joinPath (categoryPath extensionPath category) ".cursorrules"
     = Some (File text) →
     getTemplatesInCategory extensionPath category w
     = (w, Return [ {| id := category;
                       name := category;
                       category := category;
                       description := trim (before LF text);
                       content := text |} ])) ∧
  ((∀ text,
      files w !! joinPath (categoryPath extensionPath category) ".cursorrules"
      ≠ Some (File text)) →
   ∃ reason,
     getTemplatesInCategory extensionPath category w
     = (w, Throw (Error ("Failed to read templates in category " +:+ category
                           +:+ ": " +:+ reason)))) ∧
  (well_formed (files w) →
   files w !! categoryPath extensionPath category ≠ Some Dir →
   ∃ reason,
     getTemplatesInCategory extensionPath category w
     = (w, Throw (Error ("Failed to read templates in category " +:+ category
                           +:+ ": " +:+ reason)))).
Proof.
  assert ((∀ text,
      files w !! joinPath (categoryPath extensionPath category) ".cursorrules"
      ≠ Some (File text)) →
   ∃ reason,
     getTemplatesInCategory extensionPath category w
     = (w, Throw (Error ("Failed to read templates in category " +:+ category
                           +:+ ": " +:+ reason)))) as Hmissing.
  { intros Hno.
    unfold getTemplatesInCategory, try_catch, mbind, M_bind, readFile.
    destruct (files w !! _) as [[text|]|] eqn:Hfile; [by destruct (Hno text)|..];
      eexists; reflexivity. }
  split_and!; [|done|].
  - intros text Hfile.
    unfold getTemplatesInCategory, try_catch, mbind, M_bind, readFile.
    rewrite Hfile. by rewrite split_first.
  - intros Hwf Hdir. apply Hmissing. intros text Hfile.
    apply Hwf in Hfile; [|by destruct (categoryPath extensionPath category)].
    unfold dirname, joinPath in Hfile. by rewrite removelast_last in Hfile.
Qed.

Lemma getTemplatesInCategory_spec_witness :
  getTemplatesInCategory Scenarios.extensionPath "web" Scenarios.library
  = (Scenarios.library,
     Return [ mkRuleTemplate "web" "web" "web"
                (trim (before LF Scenarios.blank_then_hello))
                Scenarios.blank_then_hello ]).
Proof.
  apply (proj1 (getTemplatesInCategory_spec Scenarios.extensionPath "web"
                  Scenarios.library)).
  vm_compute. reflexivity.
Defined.

(** C6, as stated, fails: the file of the category starts with an empty
    line; the description is the empty string, the first non-empty line
    of the content is "Hello". *)
Lemma description_is_not_the_first_non_empty_line :
  getTemplatesInCategory Scenarios.extensionPath "web" Scenarios.library
  = (Scenarios.library,
     Return [ mkRuleTemplate "web" "web" "web" "" Scenarios.blank_then_hello ]) ∧
  Spec.first_non_empty_line Scenarios.blank_then_hello = "Hello" ∧
  "" ≠ Spec.first_non_empty_line Scenarios.blank_then_hello.
Proof. split_and!; [vm_compute; reflexivity|vm_compute; reflexivity|done]. Qed.

(** [path.join] at work.  A category written with separators and dots
    names the same directory, and the template keeps the category as it
    was given; the empty category stands for the rules folder itself. *)
Example categories_are_joined :
  categoryPath Scenarios.extensionPath "web" = ["repository"; "rules"; "web"] ∧
  categoryPath Scenarios.extensionPath "./web//" = ["repository"; "rules"; "web"] ∧
  categoryPath Scenarios.extensionPath "" = ["repository"; "rules"] ∧
  categoryPath Scenarios.extensionPath "../../.." = [] ∧
  getTemplatesInCategory Scenarios.extensionPath "x/../web/" Scenarios.library
  = (Scenarios.library,
     Return [ mkRuleTemplate "x/../web/" "x/../web/" "x/../web/" ""
                Scenarios.blank_then_hello ]) ∧
  getTemplatesInCategory Scenarios.extensionPath ""
    MoreScenarios.library_with_top_template
  = (MoreScenarios.library_with_top_template,
     Return [ mkRuleTemplate "" "" "" "Top" "Top" ]).
Proof. split_and!; by vm_compute. Qed.

(** * The schema *)

Section schema.
Import Schema.

(** A required member that is missing makes an object invalid. *)
Lemma validate_required type required properties additional items enum pat
    key members :
  key ∈ required → get key members = None →
  validate (Keywords type required properties additional items enum pat)
           (Object members) = false.
Proof.
  intros Hkey Hmissing. simpl.
  assert (forallb (λ key, bool_decide (is_Some (get key members))) required
          = false) as ->.
  { apply not_true_is_false. rewrite forallb_forall. intros Hall.
    specialize (Hall key (proj1 (list_elem_of_In _ _) Hkey)).
    apply bool_decide_eq_true in Hall as [v Hv]. congruence. }
  simpl. by rewrite andb_false_r.
Qed.

(** The schema of [level] accepts exactly the four strings. *)
Lemma validate_level v :
  validate (Keywords (Some TString) [] [] None None
                     (Some ["error"; "warning"; "info"; "hint"]) None) v = true
  ↔ v ∈ Str <$> ["error"; "warning"; "info"; "hint"].
Proof.
  split.
  - destruct v as [| | |text| |]; simpl; try done.
    intros Hin%bool_decide_eq_true.
    exact (list_elem_of_fmap_2 Str _ _ Hin).
  - intros (text & -> & Hin)%list_elem_of_fmap. simpl.
    by apply bool_decide_eq_true.
Qed.
End schema.

(** C7. Validation against the schema's rule definition rejects every
    object that lacks [id], [level] or [description], and every object
    whose [level] is not one of the strings error, warning, info, hint.
    The document of the scenario is accepted by the root schema with the
    level "warning" and rejected with the level "critical". *)
Theorem schema_rejects_bad_rules :
  (∀ members,
     Schema.get "id" members = None ∨ Schema.get "level" members = None ∨
     Schema.get "description" members = None →
     Schema.validate Schema.rule (Schema.Object members) = false) ∧
  (∀ members level,
     Schema.get "level" members = Some level →
     level ∉ Schema.Str <$> ["error"; "warning"; "info"; "hint"] →
     Schema.validate Schema.rule (Schema.Object members) = false) ∧
  Schema.validate Schema.cursorrules (Schema.scenario "warning") = true ∧
  Schema.validate Schema.cursorrules (Schema.scenario "critical") = false.
Proof.
  split_and!; [| |by vm_compute..].
  - intros members [H|[H|H]];
      (eapply validate_required; [|exact H]); set_solver.
  - intros members level Hlevel Hout.
    assert (Schema.validate
              (Schema.Keywords (Some Schema.TString) [] [] None None
                 (Some ["error"; "warning"; "info"; "hint"]) None) level
            = false) as Hbad.
    { apply not_true_iff_false. intros Hok. apply Hout. by apply validate_level. }
    clear Hout. revert Hbad.
    unfold Schema.rule.
    generalize (Schema.Keywords (Some Schema.TString) [] [] None None
                  (Some ["error"; "warning"; "info"; "hint"]) None).
    intros level_schema Hbad. simpl. rewrite Hlevel, Hbad. simpl.
    by rewrite !andb_false_r.
Qed.

Lemma schema_rejects_bad_rules_witness :
  Schema.validate Schema.rule
    (Schema.Object [ ("id", Schema.Str "r1"); ("level", Schema.Str "critical");
                     ("description", Schema.Str "x") ]) = false ∧
  Schema.validate Schema.rule
    (Schema.Object [ ("id", Schema.Str "r1"); ("level", Schema.Str "warning") ])
  = false.
Proof.
  split.
  - apply (proj1 (proj2 schema_rejects_bad_rules) _ (Schema.Str "critical")).
    + reflexivity.
    + vm_compute. intros H. repeat (inversion H as [|? ? ? H']; clear H; subst;
                                      try rename H' into H).
  - apply (proj1 schema_rejects_bad_rules). right. right. reflexivity.
Defined.

(** * The names of the backups *)

Section backup_names.
Implicit Types (s t : string) (x y : Z).

Lemma lex_Eq_r c : lex c Eq = c.
Proof. by destruct c. Qed.

Lemma compare_refl s : String.compare s s = Eq.
Proof.
  induction s as [|c s IH]; simpl; [done|].
  unfold Ascii.compare. by rewrite N.compare_refl.
Qed.

(** Strings that start with pieces of equal length compare piece by
    piece. *)
Lemma compare_append a b s t :
  String.length a = String.length b →
  String.compare (a +:+ s) (b +:+ t)
  = lex (String.compare a b) (String.compare s t).
Proof.
  revert b. induction a as [|c a IH]; intros [|d b]; simpl; try done.
  intros [= Hlen]. rewrite IH by done.
  by destruct (Ascii.compare c d).
Qed.

Lemma compare_single (a b : ascii) :
  String.compare (String a "") (String b "") = Ascii.compare a b.
Proof. simpl. by destruct (Ascii.compare a b). Qed.

Lemma length_append s t :
  String.length (s +:+ t) = (String.length s + String.length t)%nat.
Proof. induction s as [|a s IH]; simpl; [done|by rewrite IH]. Qed.

Lemma length_pad width x : String.length (pad width x) = width.
Proof.
  revert x. induction width as [|width IH]; intros x; simpl; [done|].
  rewrite length_append, IH. simpl. lia.
Qed.

Lemma digit_compare_nat (n m : nat) :
  (n < 10)%nat → (m < 10)%nat →
  Ascii.compare (ascii_of_nat (48 + n)) (ascii_of_nat (48 + m))
  = (Z.of_nat n ?= Z.of_nat m)%Z.
Proof.
  intros Hn Hm.
  destruct n as [|[|[|[|[|[|[|[|[|[|n]]]]]]]]]]; [..|lia];
    (destruct m as [|[|[|[|[|[|[|[|[|[|m]]]]]]]]]]; [reflexivity..|lia]).
Qed.

Lemma digit_compare x y :
  Ascii.compare (digit x) (digit y) = (x mod 10 ?= y mod 10)%Z.
Proof.
  unfold digit.
  pose proof (Z.mod_pos_bound x 10 ltac:(lia)) as Hx.
  pose proof (Z.mod_pos_bound y 10 ltac:(lia)) as Hy.
  rewrite digit_compare_nat by lia.
  by rewrite !Z2Nat.id by lia.
Qed.

Lemma compare_div_mod x y :
  (0 ≤ x)%Z → (0 ≤ y)%Z →
  lex (x / 10 ?= y / 10)%Z (x mod 10 ?= y mod 10)%Z = (x ?= y)%Z.
Proof.
  intros Hx Hy.
  pose proof (Z.div_mod x 10 ltac:(lia)) as Ex.
  pose proof (Z.div_mod y 10 ltac:(lia)) as Ey.
  pose proof (Z.mod_pos_bound x 10 ltac:(lia)).
  pose proof (Z.mod_pos_bound y 10 ltac:(lia)).
  symmetry.
  destruct (Z.compare_spec (x / 10) (y / 10)) as [Hq|Hq|Hq]; simpl.
  - destruct (Z.compare_spec (x mod 10) (y mod 10));
      [apply Z.compare_eq_iff|apply Z.compare_lt_iff|apply Z.compare_gt_iff]; lia.
  - apply Z.compare_lt_iff. lia.
  - apply Z.compare_gt_iff. lia.
Qed.

(** Zero-padded numbers of one width compare as the numbers do. *)
Lemma pad_compare width x y :
  (0 ≤ x < 10 ^ Z.of_nat width)%Z → (0 ≤ y < 10 ^ Z.of_nat width)%Z →
  String.compare (pad width x) (pad width y) = (x ?= y)%Z.
Proof.
  revert x y. induction width as [|width IH]; intros x y Hx Hy.
  - simpl in *. assert (x = 0 ∧ y = 0)%Z as [-> ->] by lia. done.
  - rewrite Nat2Z.inj_succ, Z.pow_succ_r in Hx, Hy by lia.
    simpl. rewrite compare_append by (by rewrite !length_pad).
    rewrite IH.
    + rewrite compare_single, digit_compare.
      by rewrite compare_div_mod by lia.
    + split; [apply Z.div_pos; lia|apply Z.div_lt_upper_bound; lia].
    + split; [apply Z.div_pos; lia|apply Z.div_lt_upper_bound; lia].
Qed.

Lemma replace_all_append class c s t :
  replace_all class c (s +:+ t) = replace_all class c s +:+ replace_all class c t.
Proof. induction s as [|a s IH]; simpl; [done|by rewrite IH]. Qed.

Lemma digit_is_kept x : colon_or_dot (digit x) = false.
Proof.
  unfold digit.
  pose proof (Z.mod_pos_bound x 10 ltac:(lia)) as Hx.
  assert (Z.to_nat (x mod 10) < 10)%nat as Hn by lia.
  destruct (Z.to_nat (x mod 10)) as [|[|[|[|[|[|[|[|[|[|n]]]]]]]]]];
    [reflexivity..|lia].
Qed.

Lemma replace_all_pad width x :
  replace_all colon_or_dot "-" (pad width x) = pad width x.
Proof.
  revert x. induction width as [|width IH]; intros x; simpl; [done|].
  rewrite replace_all_append, IH. cbn [replace_all]. by rewrite digit_is_kept.
Qed.

(** Each character of the result is the character of the argument, or
    the replacement where that one is in the class. *)
Lemma replace_all_get class c s i :
  String.get i (replace_all class c s)
  = (λ a, if class a then c else a) <$> String.get i s.
Proof.
  revert i. induction s as [|a s IH]; intros [|i]; simpl; try done.
Qed.
End backup_names.

Section timestamps.
Context (h : host).

(** The token of a date with a four-digit year. *)
Lemma timestamp_shape :
  (0 ≤ year (now h) ≤ 9999)%Z →
  timestamp h
  = pad 4 (year (now h)) +:+ "-" +:+ pad 2 (month (now h)) +:+ "-"
      +:+ pad 2 (day (now h)) +:+ "T" +:+ pad 2 (hours (now h)) +:+ "-"
      +:+ pad 2 (minutes (now h)) +:+ "-" +:+ pad 2 (seconds (now h)) +:+ "-"
      +:+ pad 3 (milliseconds (now h)) +:+ "Z".
Proof.
  intros Hyear. unfold timestamp, toISOString, iso_year.
  rewrite bool_decide_eq_true_2 by done.
  rewrite !replace_all_append, !replace_all_pad. reflexivity.
Qed.

Lemma length_timestamp :
  (0 ≤ year (now h) ≤ 9999)%Z → String.length (timestamp h) = 24%nat.
Proof.
  intros Hyear. rewrite timestamp_shape by done.
  rewrite !length_append, !length_pad. reflexivity.
Qed.
End timestamps.

Lemma timestamp_compare h1 h2 :
  valid (now h1) → valid (now h2) →
  (0 ≤ year (now h1) ≤ 9999)%Z → (0 ≤ year (now h2) ≤ 9999)%Z →
  String.compare (timestamp h1) (timestamp h2) = chronological (now h1) (now h2).
Proof.
  intros (Hmo1 & Hd1 & Hh1 & Hmi1 & Hs1 & Hms1) (Hmo2 & Hd2 & Hh2 & Hmi2 & Hs2 & Hms2)
         Hy1 Hy2.
  rewrite !timestamp_shape by done. unfold chronological.
  repeat (rewrite compare_append by (by rewrite ?length_pad);
          rewrite ?compare_refl; cbn [lex];
          rewrite ?pad_compare by (simpl; lia)).
  by rewrite lex_Eq_r.
Qed.

(** C8, as the code has it. The backup is named [.cursorrules.], the
    token, [.backup]; the token is the ISO string of the current time
    with each [:] and [.] replaced by [-] and every other character
    kept; and for times of the years 0 to 9999 the tokens, and so the
    names, are ordered as strings exactly as the times are ordered. *)
Theorem backup_names_sort_by_time h1 h2 :
  valid (now h1) → valid (now h2) →
  (0 ≤ year (now h1) ≤ 9999)%Z → (0 ≤ year (now h2) ≤ 9999)%Z →
  (∀ target,
     pop (siblingBackupUri h1 target)
     = Some (".cursorrules." +:+ timestamp h1 +:+ ".backup")) ∧
  (∀ i, String.get i (timestamp h1)
        = (λ c, if bool_decide (c = ":"%char ∨ c = "."%char) then "-"%char else c)
            <$> String.get i (toISOString (now h1))) ∧
  String.compare (timestamp h1) (timestamp h2)
  = chronological (now h1) (now h2) ∧
  String.compare (backupFileName h1) (backupFileName h2)
  = chronological (now h1) (now h2).
Proof.
  intros Hv1 Hv2 Hy1 Hy2. split_and!.
  - intros target. unfold siblingBackupUri, joinPath, pop. by rewrite last_snoc.
  - intros i. unfold timestamp. by rewrite replace_all_get.
  - by apply timestamp_compare.
  - unfold backupFileName.
    rewrite compare_append by done. rewrite compare_refl. cbn [lex].
    rewrite compare_append by (by rewrite !length_timestamp).
    rewrite compare_refl, lex_Eq_r. by apply timestamp_compare.
Qed.

Lemma backup_names_sort_by_time_witness :
  (∀ target,
     pop (siblingBackupUri (Scenarios.user_at Scenarios.noon) target)
     = Some (".cursorrules." +:+ timestamp (Scenarios.user_at Scenarios.noon)
               +:+ ".backup")) ∧
  (∀ i, String.get i (timestamp (Scenarios.user_at Scenarios.noon))
        = (λ c, if bool_decide (c = ":"%char ∨ c = "."%char) then "-"%char else c)
            <$> String.get i (toISOString Scenarios.noon)) ∧
  String.compare (timestamp (Scenarios.user_at Scenarios.noon))
                 (timestamp (Scenarios.user_at Scenarios.just_after_noon))
  = Lt ∧
  String.compare (backupFileName (Scenarios.user_at Scenarios.noon))
                 (backupFileName (Scenarios.user_at Scenarios.just_after_noon))
  = Lt.
Proof.
  apply (backup_names_sort_by_time (Scenarios.user_at Scenarios.noon)
           (Scenarios.user_at Scenarios.just_after_noon)).
  - unfold valid. simpl. lia.
  - unfold valid. simpl. lia.
  - simpl. lia.
  - simpl. lia.
Defined.

(** C8, as stated, fails: beyond the year 9999 the ISO string has a sign
    and six digits for the year.  A backup made in the year 10000 is
    later than one made at [noon] in 2026, and its token and its name
    sort before those of the earlier one. *)
Lemma a_later_backup_sorts_first :
  valid Scenarios.noon ∧ valid Scenarios.year_10000 ∧
  chronological Scenarios.noon Scenarios.year_10000 = Lt ∧
  toISOString Scenarios.year_10000 = "+010000-01-01T00:00:00.000Z" ∧
  String.compare (timestamp (Scenarios.user_at Scenarios.noon))
                 (timestamp (Scenarios.user_at Scenarios.year_10000)) = Gt ∧
  String.compare (backupFileName (Scenarios.user_at Scenarios.noon))
                 (backupFileName (Scenarios.user_at Scenarios.year_10000)) = Gt.
Proof.
  split_and!; try (by vm_compute); unfold valid; simpl; lia.
Qed.

(** The names at work: the token of [noon], and a year of five digits,
    whose token starts with a sign and sorts before every four-digit
    year although it is later. *)
Example timestamp_at_noon :
  timestamp (Scenarios.user_at Scenarios.noon) = "2026-11-02T12-00-00-000Z" ∧
  backupFileName (Scenarios.user_at Scenarios.noon) = Scenarios.backup_at_noon ∧
  timestamp (Scenarios.user_at Scenarios.year_10000) = "+010000-01-01T00-00-00-000Z" ∧
  chronological Scenarios.noon Scenarios.year_10000 = Lt ∧
  String.compare (timestamp (Scenarios.user_at Scenarios.noon))
                 (timestamp (Scenarios.user_at Scenarios.year_10000)) = Gt.
Proof. by vm_compute. Qed.

(** * Further properties of the save *)

(** X1. When the copy beside the target returns, the document is never lost:
    after the save a file other than the target holds the content the
    target had, and the target holds either the template's content or
    still its own. *)
Theorem backed_up_before_replaced h template targetUri target w w1 c :
  resolveTargetUri h targetUri w = (w, Return target) →
  files w !! target = Some (File c) →
  choice h = Some "Replace" →
  copy h target (siblingBackupUri h target) true w = (w1, Return ()) →
  ∃ w' r backup,
    saveTemplateToWorkspace h template targetUri w = (w', r) ∧
    backup ≠ target ∧
    files w' !! backup = Some (File c) ∧
    (files w' !! target = Some (File (content template)) ∨
     files w' !! target = Some (File c) ∧ ∃ e, r = Throw e).
Proof.
  intros Htarget Hfile Hchoice Hcopy.
  destruct (copy_returns _ _ _ _ _ _ Hcopy) as (_ & Hst & Hts & Hout & Hbackup & _).
  specialize (Hbackup c Hfile).
  assert (files w1 !! target = Some (File c)) as Hfile1
    by (by rewrite Hout).
  assert (target ≠ siblingBackupUri h target) as Hne
    by (by intros Heq; apply Hst; rewrite <- Heq).
  destruct (moveToBackupDirectory_spec h _ w1 c Hbackup)
    as (w2 & Hmove & _ & _ & Hframe & Hcases).
  pose proof (Hframe target c Hne Hfile1) as Hfile2.
  assert (∃ backup, backup ≠ target ∧ files w2 !! backup = Some (File c))
    as (backup & Hother & Hheld).
  { destruct Hcases
      as [(_ & _ & folder & others & fileName & _ & _ & Hfree & Hmoved)|[_ Hkept]].
    - exists (joinPath (backupDirectory folder) fileName). split; [|done].
      intros Heq. rewrite Heq in Hfree. congruence.
    - exists (siblingBackupUri h target). by split. }
  assert (backupExisting h target w = (w2, Return false)) as Hblock.
  { rewrite backupExisting_confirmed by (by rewrite ?Hfile).
    by rewrite Hcopy, Hmove. }
  rewrite (save_continues h template targetUri target w w2 Htarget Hblock).
  destruct (writeAndOpen h target (content template) w2) as [w3 r] eqn:Htail.
  apply writeAndOpen_spec in Htail as [[-> [e ->]]|(Hfiles & Hfree & _)].
  - exists w2, (Throw (Error ("Failed to save template: " +:+ message e))), backup.
    split_and!; eauto.
  - exists w3, (match r with
                | Return _ => Return ()
                | Throw e => Throw (Error ("Failed to save template: " +:+ message e))
                end), backup.
    split_and!; [by destruct r|done| |left].
    + rewrite Hfiles, lookup_insert_ne by done. by apply mkdirp_keeps_files.
    + by rewrite Hfiles, lookup_insert_eq.
Qed.

Lemma backed_up_before_replaced_witness :
  ∃ w' r backup,
    saveTemplateToWorkspace (Scenarios.user (Some "Replace") Scenarios.nothing_refused)
      Scenarios.T None Scenarios.project = (w', r) ∧
    backup ≠ ["project"; ".cursorrules"] ∧
    files w' !! backup = Some (File "A") ∧
    (files w' !! ["project"; ".cursorrules"] = Some (File (content Scenarios.T)) ∨
     files w' !! ["project"; ".cursorrules"] = Some (File "A") ∧ ∃ e, r = Throw e).
Proof.
  apply (backed_up_before_replaced
           (Scenarios.user (Some "Replace") Scenarios.nothing_refused)
           Scenarios.T None ["project"; ".cursorrules"] Scenarios.project
           Scenarios.project_with_backup_beside "A").
  - reflexivity.
  - vm_compute. reflexivity.
  - reflexivity.
  - vm_compute. reflexivity.
Defined.



(** * More about the template repository *)

Section repository.
Implicit Types (fs : gmap path node) (dir : path).

Lemma elem_of_listing fs dir entry n :
  (entry, n) ∈ listing fs dir ↔ fs !! joinPath dir entry = Some n.
Proof.
  unfold listing. rewrite list_elem_of_omap. split.
  - intros ([k v] & Hin%elem_of_map_to_list & Hf). simpl in Hf.
    destruct (last k) as [e|]; [|done].
    destruct (decide (k = joinPath dir e)) as [->|]; [|done].
    by injection Hf as -> ->.
  - intros Hn. exists (joinPath dir entry, n). split.
    + by apply elem_of_map_to_list.
    + simpl. unfold joinPath. rewrite last_snoc.
      by rewrite decide_True.
Qed.

Lemma NoDup_listing fs dir : NoDup (listing fs dir).*1.
Proof.
  apply NoDup_fmap_fst.
  - intros entry n1 n2 H1%elem_of_listing H2%elem_of_listing. congruence.
  - unfold listing.
    pose proof (NoDup_map_to_list fs) as Hnd.
    induction (map_to_list fs) as [|[k v] l IH]; simpl; [constructor|].
    apply NoDup_cons in Hnd as [Hk Hl].
    destruct (last k) as [e|] eqn:Hlast; [|by apply IH].
    destruct (decide (k = joinPath dir e)) as [->|]; [|by apply IH].
    apply NoDup_cons. split; [|by apply IH].
    intros ([k' v'] & Hin & Hf)%list_elem_of_omap. simpl in Hf.
    destruct (last k') as [e'|]; [|done].
    destruct (decide (k' = joinPath dir e')) as [->|]; [|done].
    injection Hf as -> ->. done.
Qed.
End repository.

Lemma NoDup_filter_fst {A B} (P : A * B → bool) (l : list (A * B)) :
  NoDup l.*1 → NoDup (List.filter P l).*1.
Proof.
  induction l as [|x l IH]; simpl; [done|].
  intros [Hx Hl]%NoDup_cons. destruct (P x); simpl; [|by apply IH].
  apply NoDup_cons. split; [|by apply IH].
  intros (y & Hfst & Hy%list_elem_of_In)%list_elem_of_fmap.
  apply filter_In in Hy as [Hy%list_elem_of_In _].
  apply Hx. rewrite Hfst. by apply list_elem_of_fmap_2.
Qed.

(** What [getTemplateCategories] returns. *)
Lemma getTemplateCategories_lists extensionPath w :
  (files w !! rulesPath extensionPath = Some Dir →
   ∃ names,
     getTemplateCategories extensionPath w = (w, Return names) ∧
     NoDup names ∧
     ∀ name, name ∈ names
             ↔ files w !! joinPath (rulesPath extensionPath) name = Some Dir) ∧
  (files w !! rulesPath extensionPath ≠ Some Dir →
   ∃ reason,
     getTemplateCategories extensionPath w
     = (w, Throw (Error ("Failed to read rule categories: " +:+ reason)))).
Proof.
  unfold getTemplateCategories, try_catch, mbind, M_bind, readdir, is_dir.
  split.
  - intros ->. eexists. split; [reflexivity|]. split.
    + apply NoDup_filter_fst, NoDup_listing.
    + intros name. rewrite list_elem_of_fmap. split.
      * intros ([entry n] & -> & Hin%list_elem_of_In).
        apply filter_In in Hin as [Hin%list_elem_of_In Hdir]. simpl in *.
        apply elem_of_listing in Hin. by destruct n.
      * intros Hdir. exists (name, Dir). split; [done|].
        apply list_elem_of_In, filter_In. split; [|done].
        by apply list_elem_of_In, elem_of_listing.
  - intros Hdir. destruct (files w !! rulesPath extensionPath) as [[|]|];
      try done; eexists; reflexivity.
Qed.


(** A string without the separator is one piece. *)
Lemma split_without_separator sep s :
  forallb (λ c, negb (bool_decide (c = sep))) (String.list_ascii_of_string s) = true →
  split sep s = [s].
Proof.
  induction s as [|c s IH]; simpl; [done|].
  intros [Hc Hs]%andb_true_iff.
  apply negb_true_iff, bool_decide_eq_false in Hc.
  rewrite decide_False by done. by rewrite IH.
Qed.

(** [path.join] puts a name below the base. *)
Lemma join_name base name :
  Path.is_name name = true → Path.join base name = joinPath base name.
Proof.
  unfold Path.is_name, Path.join.
  intros [Hname Hseparator]%andb_true_iff.
  apply negb_true_iff, bool_decide_eq_false in Hname.
  rewrite (split_without_separator _ _ Hseparator). simpl.
  unfold Path.resolve.
  rewrite decide_False by (intros [->| ->]; apply Hname; set_solver).
  rewrite decide_False by (intros ->; apply Hname; set_solver).
  done.
Qed.

(** X5. A category directory that holds no [.cursorrules] file is listed
    by [getTemplateCategories] all the same, and
    [getTemplatesInCategory] then throws for it.  The directory lies
    directly in the rules folder, under a name an entry can have. *)
Theorem category_without_template_file extensionPath category w :
  files w !! rulesPath extensionPath = Some Dir →
  Path.is_name category = true →
  files w !! joinPath (rulesPath extensionPath) category = Some Dir →
  (∀ text,
     files w !! joinPath (joinPath (rulesPath extensionPath) category)
                         ".cursorrules"
     ≠ Some (File text)) →
  ∃ names reason,
    getTemplateCategories extensionPath w = (w, Return names) ∧
    category ∈ names ∧
    getTemplatesInCategory extensionPath category w
    = (w, Throw (Error ("Failed to read templates in category " +:+ category
                          +:+ ": " +:+ reason))).
Proof.
  intros Hrules Hname Hcategory Hno.
  rewrite <- (join_name _ _ Hname) in Hno.
  destruct (proj1 (getTemplateCategories_lists extensionPath w) Hrules)
    as (names & Hlist & _ & Hnames).
  assert (∃ reason,
    getTemplatesInCategory extensionPath category w
    = (w, Throw (Error ("Failed to read templates in category " +:+ category
                          +:+ ": " +:+ reason)))) as [reason Hthrow].
  { unfold getTemplatesInCategory, try_catch, mbind, M_bind, readFile.
    destruct (files w !! joinPath (categoryPath extensionPath category)
                                  ".cursorrules")
      as [[text|]|] eqn:Hfile; [by destruct (Hno text)|..];
      eexists; reflexivity. }
  exists names, reason. split_and!; [done| |done].
  by apply Hnames.
Qed.

(** * More about the file system *)

Section tree.
Implicit Types (fs : gmap path node) (p q k : path).

Lemma elem_of_ancestors_from base p q :
  q ∈ ancestors_from base p ↔ ∃ r, r ≠ [] ∧ r `prefix_of` p ∧ q = base ++ r.
Proof.
  revert base. induction p as [|x p IH]; intros base; simpl.
  - split; [by intros ?%elem_of_nil|].
    intros (r & Hr & ->%prefix_nil_inv & _). done.
  - rewrite elem_of_cons, IH. split.
    + intros [->|(r & Hr & Hpre & ->)].
      * exists [x]. split_and!; [done| |done].
        apply prefix_cons, prefix_nil.
      * exists (x :: r). split_and!; [done|by apply prefix_cons|].
        by rewrite <- app_assoc.
    + intros ([|y r] & Hr & Hpre & ->); [done|].
      pose proof (prefix_cons_inv_1 _ _ _ _ Hpre) as ->.
      apply prefix_cons_inv_2 in Hpre.
      destruct r as [|z r]; [by left|right].
      exists (z :: r). split_and!; [done|done|].
      by rewrite <- app_assoc.
Qed.

Lemma elem_of_ancestors p q : q ∈ ancestors p ↔ q ≠ [] ∧ q `prefix_of` p.
Proof.
  unfold ancestors. rewrite elem_of_ancestors_from. split.
  - by intros (r & Hr & Hpre & ->).
  - intros [Hq Hpre]. by exists q.
Qed.

(** In a well-formed file system whatever lies above an entry is a
    directory. *)
Lemma well_formed_above fs p q n :
  well_formed fs → fs !! p = Some n → q `prefix_of` p → q ≠ p →
  fs !! q = Some Dir.
Proof.
  intros Hwf Hp [s ->] Hne. revert n Hp Hne.
  induction s as [|x s IH] using rev_ind; intros n Hp Hne.
  - by rewrite app_nil_r in Hne.
  - rewrite app_assoc in Hp.
    assert ((q ++ s) ++ [x] ≠ []) as Hnil by (by destruct (q ++ s)).
    pose proof (Hwf _ _ Hnil Hp) as Hparent.
    unfold dirname in Hparent. rewrite removelast_last in Hparent.
    destruct s as [|y s] using rev_ind; [by rewrite app_nil_r in Hparent|].
    clear IHs. apply (IH Dir); [done|].
    intros Heq. apply (f_equal length) in Heq.
    rewrite !length_app in Heq. simpl in Heq. lia.
Qed.

(** ... and nothing lies below a file or below a path that is free. *)
Lemma well_formed_below fs p k :
  well_formed fs → fs !! p ≠ Some Dir → p `prefix_of` k → k ≠ p →
  fs !! k = None.
Proof.
  intros Hwf Hp Hpre Hne.
  destruct (fs !! k) as [n|] eqn:Hk; [|done].
  destruct Hp. by apply (well_formed_above fs k p n).
Qed.

Lemma has_children_false fs p :
  has_children fs p = false ↔ ∀ k, p `prefix_of` k → is_Some (fs !! k) → k = p.
Proof.
  unfold has_children. rewrite negb_false_iff, bool_decide_eq_true.
  unfold subtree. split.
  - intros Hall k Hpre [n Hn]. apply (Hall k n).
    by apply map_lookup_filter_Some.
  - intros Hall k n [Hn Hpre]%map_lookup_filter_Some. apply Hall; [done|by eexists].
Qed.

(** Creating directories along a path no file lies on changes no
    entry that is there. *)
Lemma mkdirp_keeps p fs k n :
  no_file_on fs p = true → fs !! k = Some n → mkdirp p fs !! k = Some n.
Proof.
  intros Hfree Hk. rewrite lookup_mkdirp.
  destruct (decide (k ∈ ancestors p)) as [Hin|]; [|done].
  destruct n as [c|]; [|done].
  by destruct (proj1 (no_file_on_spec fs p) Hfree k c Hin).
Qed.

Lemma no_file_on_well_formed fs p n :
  well_formed fs → fs !! p = Some n → no_file_on fs (dirname p) = true.
Proof.
  intros Hwf Hp. apply no_file_on_spec. intros q c [Hq Hpre]%elem_of_ancestors Hfile.
  assert (q `prefix_of` p) as Hpre'.
  { destruct Hpre as [s Hs]. destruct p as [|x p] using rev_ind.
    - simpl in Hs. by destruct q.
    - unfold dirname in Hs. rewrite removelast_last in Hs. rewrite Hs.
      rewrite <- app_assoc. by apply prefix_app_r. }
  destruct (decide (q = p)) as [->|Hne].
  - destruct Hpre as [s Hs]. destruct p as [|x p] using rev_ind; [done|].
    unfold dirname in Hs. rewrite removelast_last in Hs.
    apply (f_equal length) in Hs. rewrite !length_app in Hs. simpl in Hs. lia.
  - pose proof (well_formed_above fs p q n Hwf Hp Hpre' Hne). congruence.
Qed.
End tree.

(** * More about the backup directory *)

Section backup_directory_more.
Context (h : host).
Implicit Types (w : world) (backupUri folder : path).

Lemma stat_spec uri w :
  stat uri w = (w, if files w !! uri is Some _ then Return ()
                   else Throw (FsError FileNotFound)).
Proof. unfold stat. by destruct (files w !! uri). Qed.

Lemma ensureBackupDirectory_present folder w :
  is_Some (files w !! backupDirectory folder) →
  ensureBackupDirectory h folder w = (w, Return (backupDirectory folder)).
Proof.
  intros [n Hn].
  unfold ensureBackupDirectory, try_catch, mbind, M_bind.
  by rewrite stat_spec, Hn.
Qed.

Lemma ensureBackupDirectory_absent folder w :
  files w !! backupDirectory folder = None →
  fault h (OpCreateDirectory (backupDirectory folder)) = false →
  no_file_on (files w) (backupDirectory folder) = true →
  ensureBackupDirectory h folder w
  = (with_files w (mkdirp (backupDirectory folder) (files w)),
     Return (backupDirectory folder)).
Proof.
  intros Hnone Hfault Hfree.
  unfold ensureBackupDirectory, try_catch, mbind, M_bind, createDirectory.
  by rewrite stat_spec, Hnone, Hfault, Hfree.
Qed.

Lemma backupDirectory_in_ancestors folder :
  backupDirectory folder ∈ ancestors (backupDirectory folder).
Proof.
  apply elem_of_ancestors. split; [|done].
  unfold backupDirectory, joinPath. by destruct folder.
Qed.

(** The world of a move that nothing hinders. *)
Lemma moveToBackupDirectory_moves backupUri w c folder others fileName :
  workspaceFolders h = Some (folder :: others) →
  files w !! backupUri = Some (File c) →
  pop backupUri = Some fileName → fileName ≠ "" →
  (files w !! backupDirectory folder = Some Dir ∨
   files w !! backupDirectory folder = None ∧
   no_file_on (files w) (backupDirectory folder) = true ∧
   fault h (OpCreateDirectory (backupDirectory folder)) = false) →
  files w !! joinPath (backupDirectory folder) fileName = None →
  ¬ backupUri `prefix_of` joinPath (backupDirectory folder) fileName →
  ¬ joinPath (backupDirectory folder) fileName `prefix_of` backupUri →
  has_children (files w) backupUri = false →
  fault h (OpCopy backupUri (joinPath (backupDirectory folder) fileName)) = false →
  fault h (OpDelete backupUri) = false →
  moveToBackupDirectory h backupUri w
  = (with_files w
       (base.delete backupUri
          (<[joinPath (backupDirectory folder) fileName := File c]>
             (if files w !! backupDirectory folder is Some _ then files w
              else mkdirp (backupDirectory folder) (files w)))),
     Return ()).
Proof.
  intros Hfolder Hfile Hpop Hname Hdir Hfree Hbn Hnb Hleaf Hcopy Hdelete.
  set (fs1 := if files w !! (backupDirectory folder) is Some _ then files w else mkdirp (backupDirectory folder) (files w)).
  assert (ensureBackupDirectory h folder w = (with_files w fs1, Return (backupDirectory folder)))
    as Hensure.
  { subst fs1. destruct Hdir as [Hd|(Hd & Hfreedir & Hmk)].
    - rewrite ensureBackupDirectory_present by (by rewrite Hd).
      rewrite Hd. by destruct w.
    - rewrite ensureBackupDirectory_absent by done. by rewrite Hd. }
  assert (fs1 !! backupUri = Some (File c)) as Hfile1.
  { subst fs1. destruct Hdir as [->|(-> & Hfreedir & _)]; [done|].
    by apply mkdirp_keeps. }
  assert (fs1 !! (backupDirectory folder) = Some Dir) as Hbd1.
  { subst fs1. destruct Hdir as [Hd|(Hd & _)]; rewrite Hd; [done|].
    rewrite lookup_mkdirp.
    by rewrite decide_True by apply backupDirectory_in_ancestors. }
  assert (fs1 !! (joinPath (backupDirectory folder) fileName) = None) as Hfree1.
  { subst fs1. destruct Hdir as [->|(-> & _)]; [done|].
    rewrite lookup_mkdirp. rewrite decide_False; [done|].
    intros [_ Hpre]%elem_of_ancestors.
    apply prefix_length in Hpre. unfold joinPath in Hpre.
    rewrite length_app in Hpre. simpl in Hpre. lia. }
  assert (has_children (<[(joinPath (backupDirectory folder) fileName) := File c]> fs1) backupUri = false) as Hleaf1.
  { apply has_children_false. intros k Hpre [n Hn].
    destruct (decide (k = (joinPath (backupDirectory folder) fileName))) as [->|Hk]; [done|].
    rewrite lookup_insert_ne in Hn by done.
    pose proof (proj1 (has_children_false _ _) Hleaf k Hpre) as Hko.
    subst fs1. destruct Hdir as [Hd|(Hd & Hfreedir & _)]; rewrite Hd in Hn.
    - apply Hko. by eexists.
    - rewrite lookup_mkdirp in Hn.
      destruct (decide (k ∈ ancestors (backupDirectory folder))) as [Hin|]; [|apply Hko; by eexists].
      apply elem_of_ancestors in Hin as [_ Hkbd].
      assert (backupUri ∈ ancestors (backupDirectory folder)) as Hbin.
      { apply elem_of_ancestors. split; [by destruct backupUri|].
        by transitivity k. }
      by destruct (proj1 (no_file_on_spec _ _) Hfreedir backupUri c Hbin). }
  unfold moveToBackupDirectory, try_catch, mbind, M_bind.
  rewrite Hfolder. unfold mret at 1, M_ret at 1.
  rewrite Hensure, Hpop. rewrite decide_False by done.
  unfold mret at 1, M_ret at 1.
  rewrite (copy_file h backupUri (joinPath (backupDirectory folder) fileName) false (with_files w fs1) c); try done.
  2: { simpl. unfold is_dir, dirname, joinPath.
       rewrite removelast_last. by rewrite Hbd1. }
  2: { by right. }
  simpl. rewrite Hfree1.
  unfold delete. simpl. rewrite Hdelete.
  rewrite lookup_insert_ne by (by intros Heq; apply Hnb; rewrite Heq).
  rewrite Hfile1, Hleaf1. done.
Qed.
End backup_directory_more.

(** * A save in the workspace folder, end to end *)

Section in_the_workspace_folder.
Context (h : host) (folder : path).

Local Abbreviation target := (joinPath folder ".cursorrules").
Local Abbreviation beside := (joinPath folder (backupFileName h)).
Local Abbreviation archive := (backupDirectory folder).
Local Abbreviation archived := (joinPath (backupDirectory folder) (backupFileName h)).

Lemma backupFileName_not_config : backupFileName h ≠ ".cursorrules".
Proof. unfold backupFileName. simpl. discriminate. Qed.

Lemma backupFileName_not_archive : backupFileName h ≠ ".cursorrules-backup".
Proof. unfold backupFileName. simpl. discriminate. Qed.

Lemma backupFileName_not_empty : backupFileName h ≠ "".
Proof. unfold backupFileName. simpl. discriminate. Qed.

Lemma sibling_of_target : siblingBackupUri h target = beside.
Proof. unfold siblingBackupUri, dirname, joinPath. by rewrite removelast_last. Qed.

Lemma dirname_joinPath (base : path) name : dirname (joinPath base name) = base.
Proof. unfold dirname, joinPath. by rewrite removelast_last. Qed.

Lemma snoc_prefix_snoc (l : path) x y rest :
  l ++ [x] `prefix_of` l ++ y :: rest → x = y.
Proof. intros Hpre%prefix_app_inv. by apply prefix_cons_inv_1 in Hpre. Qed.

Lemma beside_not_above k :
  k = target ∨ k = archive ∨ k = archived ∨ k `prefix_of` folder →
  ¬ beside `prefix_of` k.
Proof.
  unfold joinPath, backupDirectory, joinPath.
  intros [->|[->|[->|Hk]]] Hpre.
  - apply snoc_prefix_snoc in Hpre. by apply backupFileName_not_config.
  - apply snoc_prefix_snoc in Hpre. by apply backupFileName_not_archive.
  - rewrite <- app_assoc in Hpre. apply snoc_prefix_snoc in Hpre.
    by apply backupFileName_not_archive.
  - apply prefix_length in Hpre, Hk. rewrite length_app in Hpre. simpl in *. lia.
Qed.

Context (others : list path) (w : world) (c : string).
Hypothesis Hfolders : workspaceFolders h = Some (folder :: others).
Hypothesis Hfile : files w !! target = Some (File c).
Hypothesis Hchoice : choice h = Some "Replace".
Hypothesis Hallowed : ∀ o, fault h o = false.
Hypothesis Hwf : well_formed (files w).
Hypothesis Harchive : ∀ text, files w !! archive ≠ Some (File text).
Hypothesis Hfree : files w !! archived = None.

Lemma folder_is_dir : files w !! folder = Some Dir.
Proof.
  rewrite <- (Hwf target (File c)); [|by destruct folder|done].
  unfold dirname, joinPath. by rewrite removelast_last.
Qed.

Lemma above_folder_is_dir k :
  k ∈ ancestors folder → files w !! k = Some Dir.
Proof.
  intros [_ Hpre]%elem_of_ancestors.
  apply (well_formed_above (files w) target k (File c)); try done.
  - unfold joinPath. by apply prefix_app_r.
  - intros ->. apply prefix_length in Hpre. unfold joinPath in Hpre.
    rewrite length_app in Hpre. simpl in Hpre. lia.
Qed.

(** After the copy beside the target. *)
Lemma copy_beside_in_workspace :
  ∃ fs,
    copy h target beside true w = (with_files w fs, Return ()) ∧
    ∀ k, fs !! k = if decide (k = beside) then Some (File c)
                   else if decide (beside `prefix_of` k) then None
                   else files w !! k.
Proof.
  eexists. split.
  - apply copy_file; try done.
    + unfold joinPath. intros Hpre%snoc_prefix_snoc.
      by apply backupFileName_not_config.
    + apply beside_not_above. auto.
    + unfold is_dir, dirname, joinPath. rewrite removelast_last.
      by rewrite folder_is_dir.
    + by left.
  - intros k. destruct (decide (k = beside)) as [->|Hk];
      [by rewrite lookup_insert_eq|rewrite lookup_insert_ne by done].
    destruct (files w !! beside) as [n|] eqn:Hbeside.
    + by rewrite lookup_prune.
    + case_decide as Hpre; [|done].
      apply (well_formed_below (files w) beside k); try done.
      by rewrite Hbeside.
Qed.

Lemma ancestors_snoc (l : path) x q :
  q ∈ ancestors (l ++ [x]) ↔ q = l ++ [x] ∨ q ∈ ancestors l.
Proof.
  rewrite !elem_of_ancestors. split.
  - intros [Hq [s Hs]].
    destruct s as [|y s _] using rev_ind.
    + left. by rewrite app_nil_r in Hs.
    + right. split; [done|]. rewrite app_assoc in Hs.
      apply app_inj_tail in Hs as [-> _]. by apply prefix_app_r.
  - intros [->|[Hq Hpre]]; (split; [by destruct l|]); [done|].
    by apply prefix_app_r.
Qed.

Lemma ancestors_archive q :
  q ∈ ancestors archive ↔ q = archive ∨ q ∈ ancestors folder.
Proof. apply ancestors_snoc. Qed.

Lemma above_folder_is_short k :
  k ∈ ancestors folder → k ≠ target ∧ k ≠ archive ∧ k ≠ archived ∧ k `prefix_of` folder.
Proof.
  intros [_ Hpre]%elem_of_ancestors. pose proof (prefix_length _ _ Hpre) as Hlen.
  unfold backupDirectory, joinPath.
  split_and!; try done; intros ->; rewrite ?length_app in Hlen; simpl in Hlen; lia.
Qed.

Lemma names_differ :
  target ≠ archive ∧ target ≠ archived ∧ archive ≠ archived.
Proof.
  unfold backupDirectory, joinPath. split_and!.
  - by intros [_ [=]]%app_inj_tail.
  - intros Heq%(f_equal length). rewrite !length_app in Heq. simpl in Heq. lia.
  - intros Heq%(f_equal length). rewrite !length_app in Heq. simpl in Heq. lia.
Qed.

(** After the move into the backup directory. *)
Lemma move_in_workspace fs :
  (∀ k, fs !! k = if decide (k = beside) then Some (File c)
                  else if decide (beside `prefix_of` k) then None
                  else files w !! k) →
  ∃ fs2,
    moveToBackupDirectory h beside (with_files w fs) = (with_files w fs2, Return ()) ∧
    ∀ k, fs2 !! k = if decide (k = target) then Some (File c)
                    else if decide (k = archived) then Some (File c)
                    else if decide (k = archive) then Some Dir
                    else if decide (beside `prefix_of` k) then None
                    else files w !! k.
Proof.
  intros Hfs.
  assert (∀ k, ¬ beside `prefix_of` k → fs !! k = files w !! k) as Hout.
  { intros k Hk. rewrite Hfs. rewrite decide_False by (by intros ->).
    by rewrite decide_False. }
  pose proof names_differ as (Hta & Htd & Had).
  assert (fs !! archive = files w !! archive) as Harch
    by (apply Hout, beside_not_above; auto).
  exists (base.delete beside
            (<[archived := File c]>
               (if fs !! archive is Some _ then fs else mkdirp archive fs))).
  split.
  - pose proof (moveToBackupDirectory_moves h beside (with_files w fs) c folder
                  others (backupFileName h) Hfolders) as Hmove.
    simpl in Hmove. apply Hmove; clear Hmove.
    + by rewrite Hfs, decide_True.
    + unfold pop, joinPath. by rewrite last_snoc.
    + apply backupFileName_not_empty.
    + rewrite Harch. destruct (files w !! archive) as [[text|]|] eqn:Hw.
      * by destruct (Harchive text).
      * by left.
      * right. split_and!; [done| |done].
        apply no_file_on_spec. intros q text [->|Hq]%ancestors_archive.
        -- rewrite Harch. congruence.
        -- rewrite Hout, above_folder_is_dir; [done|done|].
           apply beside_not_above. destruct (above_folder_is_short q Hq). tauto.
    + rewrite Hout; [done|]. apply beside_not_above. auto.
    + apply beside_not_above. auto.
    + intros Hpre%prefix_length. unfold backupDirectory, joinPath in Hpre.
      rewrite !length_app in Hpre. simpl in Hpre. lia.
    + apply has_children_false. intros k Hpre [n Hn]. rewrite Hfs in Hn.
      destruct (decide (k = beside)); [done|]. by rewrite decide_True in Hn.
    + done.
    + done.
  - intros k.
    assert (Hbt := beside_not_above target ltac:(auto)).
    assert (Hba := beside_not_above archive ltac:(auto)).
    assert (Hbd := beside_not_above archived ltac:(auto)).
    destruct (decide (k = beside)) as [->|Hkb].
    { rewrite lookup_delete_eq.
      rewrite decide_False by (by intros Heq; apply Hbt; rewrite <- Heq).
      rewrite decide_False by (by intros Heq; apply Hbd; rewrite <- Heq).
      rewrite decide_False by (by intros Heq; apply Hba; rewrite <- Heq).
      by rewrite decide_True. }
    rewrite lookup_delete_ne by done.
    destruct (decide (k = archived)) as [->|Hkd].
    { rewrite lookup_insert_eq. by rewrite decide_False. }
    rewrite lookup_insert_ne by done.
    destruct (decide (k = target)) as [->|Hkt].
    { rewrite Harch.
      destruct (files w !! archive) as [?|];
        [|rewrite lookup_mkdirp, decide_False];
        try (rewrite Hout by done; done).
      intros [Heq|Hin]%ancestors_archive; [done|].
      by destruct (above_folder_is_short _ Hin) as (? & _). }
    rewrite Harch.
    destruct (decide (k = archive)) as [->|Hka].
    { destruct (files w !! archive) as [[text|]|] eqn:Hw.
      - by destruct (Harchive text).
      - by rewrite Harch.
      - rewrite lookup_mkdirp.
        by rewrite decide_True by apply backupDirectory_in_ancestors. }
    assert (fs !! k = if decide (beside `prefix_of` k) then None else files w !! k)
      as Hk by (by rewrite Hfs, decide_False).
    destruct (files w !! archive) as [?|]; [done|].
    rewrite lookup_mkdirp.
    destruct (decide (k ∈ ancestors archive)) as [[?|Hin]%ancestors_archive|]; [done| |done].
    destruct (above_folder_is_short _ Hin) as (_ & _ & _ & Hpre).
    rewrite decide_False by (apply beside_not_above; auto).
    by rewrite above_folder_is_dir.
Qed.

Lemma save_in_workspace template :
  ∃ w',
    saveTemplateToWorkspace h template None w = (w', Return ()) ∧
    (∀ k, files w' !! k
          = if decide (k = target) then Some (File (content template))
            else if decide (k = archived) then Some (File c)
            else if decide (k = archive) then Some Dir
            else if decide (beside `prefix_of` k) then None
            else files w !! k) ∧
    notifications w' = notifications w ++ ["Template saved successfully"] ∧
    console w' = console w ∧
    editors w' = editors w ++ [target].
Proof.
  destruct copy_beside_in_workspace as (fs & Hcopy & Hfs).
  destruct (move_in_workspace fs Hfs) as (fs2 & Hmove & Hfs2).
  pose proof names_differ as (Hta & Htd & Had).
  assert (resolveTargetUri h None w = (w, Return target)) as Htarget.
  { unfold resolveTargetUri. by rewrite Hfolders. }
  assert (backupExisting h target w = (with_files w fs2, Return false)) as Hblock.
  { rewrite backupExisting_confirmed by (by rewrite ?Hfile).
    by rewrite sibling_of_target, Hcopy, Hmove. }
  assert (∀ q, q ∈ ancestors folder → fs2 !! q = Some Dir) as Habove.
  { intros q Hq. destruct (above_folder_is_short q Hq) as (? & ? & ? & ?).
    rewrite Hfs2. rewrite !decide_False by done.
    rewrite decide_False by (apply beside_not_above; auto).
    by apply above_folder_is_dir. }
  rewrite (save_continues h template None target w _ Htarget Hblock).
  rewrite writeAndOpen_returns; simpl; try done.
  - eexists. split; [done|]. simpl. split; [|done].
    rewrite dirname_joinPath.
    intros k. destruct (decide (k = target)) as [->|Hkt];
      [by rewrite lookup_insert_eq|rewrite lookup_insert_ne by done].
    rewrite lookup_mkdirp.
    destruct (decide (k ∈ ancestors folder)) as [Hin|].
    + destruct (above_folder_is_short k Hin) as (_ & ? & ? & ?).
      rewrite !decide_False by done.
      rewrite decide_False by (apply beside_not_above; auto).
      by rewrite above_folder_is_dir.
    + by rewrite Hfs2, decide_False.
  - unfold is_dir. by rewrite Hfs2, decide_True.
  - rewrite dirname_joinPath.
    apply no_file_on_spec. intros q text Hq. by rewrite Habove.
Qed.
End in_the_workspace_folder.

Section more_save.
Context (h : host).
Implicit Types (w : world) (target k : path).

Lemma copy_refuses_taken source target w n :
  files w !! target = Some n → ∃ e, copy h source target false w = (w, Throw e).
Proof.
  intros Htaken. unfold copy. rewrite Htaken.
  repeat (case_match; eauto).
Qed.

(** X10. A name that is taken in the backup directory stops the move: the
    copy does not overwrite, so [moveToBackupDirectory] writes one line
    to the console and returns, the file that had the name keeps its
    content, and the backup stays where it was. *)
Theorem a_taken_name_stops_the_move backupUri w c folder others fileName old :
  workspaceFolders h = Some (folder :: others) →
  files w !! backupUri = Some (File c) →
  pop backupUri = Some fileName →
  files w !! joinPath (backupDirectory folder) fileName = Some (File old) →
  ∃ w' line,
    moveToBackupDirectory h backupUri w = (w', Return ()) ∧
    console w' = console w ++ [line] ∧
    files w' !! joinPath (backupDirectory folder) fileName = Some (File old) ∧
    files w' !! backupUri = Some (File c).
Proof.
  intros Hfolder Hfile Hpop Htaken.
  unfold moveToBackupDirectory, try_catch, mbind, M_bind.
  rewrite Hfolder. unfold mret at 1, M_ret at 1.
  destruct (ensureBackupDirectory h folder w) as [w1 r1] eqn:Hensure.
  apply ensureBackupDirectory_spec in Hensure
    as (Hfiles1 & _ & _ & Hc1 & _ & [->|[[e ->] ->]]).
  2: { eexists _, _. split; [done|]. simpl. auto. }
  rewrite Hpop.
  destruct (decide (fileName = "")).
  { eexists _, _. split; [done|]. simpl. rewrite Hc1. auto. }
  unfold mret at 1, M_ret at 1.
  destruct (copy_refuses_taken backupUri (joinPath (backupDirectory folder) fileName)
              w1 (File old) (Hfiles1 _ _ Htaken)) as [e ->].
  eexists _, _. split; [done|]. simpl. rewrite Hc1. auto.
Qed.

Lemma backupExisting_declined target w :
  choice h ≠ Some "Replace" → ∃ returned, backupExisting h target w = (w, Return returned).
Proof.
  intros Hchoice.
  unfold backupExisting, try_catch, mbind, M_bind. rewrite stat_spec.
  destruct (files w !! target); [|by eexists].
  unfold showWarningMessage, mret, M_ret.
  rewrite decide_True by done. by eexists.
Qed.

(** The block before the write moves no file but the one beside the
    target. *)
Lemma backupExisting_keeps target w w2 r k text :
  files w !! target ≠ Some Dir →
  backupExisting h target w = (w2, r) →
  files w !! k = Some (File text) →
  ¬ siblingBackupUri h target `prefix_of` k →
  files w2 !! k = Some (File text).
Proof.
  intros Hnodir Hblock Hk Hout.
  destruct (files w !! target) as [[c|]|] eqn:Htarget; [|done|].
  2: { rewrite backupExisting_absent in Hblock by done. by injection Hblock as <- _. }
  destruct (decide (choice h = Some "Replace")) as [Hchoice|Hchoice].
  2: { destruct (backupExisting_declined target w Hchoice) as [b Hb].
       rewrite Hb in Hblock. by injection Hblock as <- _. }
  rewrite backupExisting_confirmed in Hblock by (by rewrite ?Htarget).
  destruct (copy h target _ true w) as [w1 [[]|e]] eqn:Hcopy.
  - destruct (copy_returns _ _ _ _ _ _ Hcopy) as (_ & _ & _ & Hsame & Hbackup & _).
    destruct (moveToBackupDirectory_spec h _ w1 c (Hbackup c Htarget))
      as (w3 & Hmove & _ & _ & Hframe & _).
    rewrite Hmove in Hblock. injection Hblock as <- _.
    apply Hframe.
    + by intros ->.
    + by rewrite Hsame.
  - apply copy_throws in Hcopy as ->. by injection Hblock as <- _.
Qed.

(** X12. A save leaves the other files alone: whatever the user answers,
    whatever is refused and however the call ends, a file other than the
    target that does not lie at or below the backup's first place keeps
    its content, provided the target is not a directory. *)
Theorem save_keeps_the_other_files template targetUri target w w' r k text :
  resolveTargetUri h targetUri w = (w, Return target) →
  files w !! target ≠ Some Dir →
  saveTemplateToWorkspace h template targetUri w = (w', r) →
  files w !! k = Some (File text) →
  k ≠ target →
  ¬ siblingBackupUri h target `prefix_of` k →
  files w' !! k = Some (File text).
Proof.
  intros Htarget Hnodir Hsave Hk Hkt Hout.
  destruct (backupExisting_never_throws h target w) as (w2 & returned & Hblock).
  pose proof (backupExisting_keeps _ _ _ _ _ _ Hnodir Hblock Hk Hout) as Hk2.
  destruct returned.
  - revert Hsave.
    unfold saveTemplateToWorkspace, try_catch, mbind at 1, M_bind at 1.
    rewrite Htarget. unfold mbind at 1, M_bind at 1. rewrite Hblock.
    by intros [= <- _].
  - rewrite (save_continues h template targetUri target w w2 Htarget Hblock)
      in Hsave.
    destruct (writeAndOpen h target (content template) w2) as [w3 r3] eqn:Htail.
    apply writeAndOpen_spec in Htail as [[-> [e ->]]|(Hfiles & Hfree & _)].
    + by injection Hsave as <- _.
    + assert (w' = w3) as -> by (by destruct r3; injection Hsave).
      rewrite Hfiles, lookup_insert_ne by done. by apply mkdirp_keeps_files.
Qed.

(** Whatever leaves [saveTemplateToWorkspace] as an exception has been
    wrapped. *)
Lemma save_throws_wrapped template targetUri w w' e :
  saveTemplateToWorkspace h template targetUri w = (w', Throw e) →
  ∃ reason, e = Error ("Failed to save template: " +:+ reason).
Proof.
  unfold saveTemplateToWorkspace, try_catch.
  match goal with |- context [match ?body w with _ => _ end] =>
    destruct (body w) as [w1 [[]|e1]] end; [done|].
  intros [= _ <-]. by eexists.
Qed.
End more_save.

Section ensure.
Context (h : host).

(** X8. [ensureBackupDirectory] removes and changes no entry.  Where
    something already lies at [.cursorrules-backup], be it a file, the
    call changes nothing at all and returns that path; where the call
    throws, nothing has changed.  After a call that has returned the
    directory exists if nothing was there before, and a second call
    changes nothing and returns the same path. *)
Theorem ensureBackupDirectory_is_careful folder w w1 r :
  ensureBackupDirectory h folder w = (w1, r) →
  (∀ k n, files w !! k = Some n → files w1 !! k = Some n) ∧
  (is_Some (files w !! backupDirectory folder) →
   w1 = w ∧ r = Return (backupDirectory folder)) ∧
  (r = Return (backupDirectory folder) ∨ (∃ e, r = Throw e) ∧ w1 = w) ∧
  (r = Return (backupDirectory folder) →
   (files w !! backupDirectory folder = None →
    files w1 !! backupDirectory folder = Some Dir) ∧
   ensureBackupDirectory h folder w1 = (w1, Return (backupDirectory folder))).
Proof.
  intros Hensure.
  destruct (files w !! backupDirectory folder) as [n|] eqn:Hthere.
  - rewrite ensureBackupDirectory_present in Hensure by (by rewrite Hthere).
    injection Hensure as <- <-. split_and!; auto.
    intros _. split; [done|].
    apply ensureBackupDirectory_present. by rewrite Hthere.
  - revert Hensure.
    unfold ensureBackupDirectory, try_catch, mbind, M_bind.
    rewrite stat_spec, Hthere.
    destruct (createDirectory h (backupDirectory folder) w) as [w2 [[]|e]] eqn:Hmk.
    + apply createDirectory_returns in Hmk as [Hfree ->].
      intros [= <- <-]. simpl.
      assert (mkdirp (backupDirectory folder) (files w) !! backupDirectory folder
              = Some Dir) as Hnow.
      { rewrite lookup_mkdirp.
        by rewrite decide_True by apply backupDirectory_in_ancestors. }
      split_and!; auto.
      * intros k n Hk. by apply mkdirp_keeps.
      * by intros [? ?].
      * intros _. split; [done|].
        apply ensureBackupDirectory_present. simpl. by rewrite Hnow.
    + apply createDirectory_throws in Hmk as ->.
      intros [= <- <-]. split_and!; eauto; done.
Qed.
End ensure.

Section tokens.

Lemma chars_append s t :
  String.list_ascii_of_string (s +:+ t)
  = String.list_ascii_of_string s ++ String.list_ascii_of_string t.
Proof. induction s as [|a s IH]; simpl; [done|by rewrite IH]. Qed.

Lemma digit_is_token_char x : token_char (digit x).
Proof.
  unfold digit, token_char.
  pose proof (Z.mod_pos_bound x 10 ltac:(lia)) as Hx.
  assert (Z.to_nat (x mod 10) < 10)%nat as Hn by lia.
  destruct (Z.to_nat (x mod 10)) as [|[|[|[|[|[|[|[|[|[|n]]]]]]]]]]; [..|lia];
    (refine (bool_decide_unpack _ _); vm_compute; exact I).
Qed.

Lemma pad_token_chars width x :
  Forall token_char (String.list_ascii_of_string (pad width x)).
Proof.
  revert x. induction width as [|width IH]; intros x; simpl; [constructor|].
  rewrite chars_append. apply Forall_app. split; [apply IH|].
  simpl. constructor; [apply digit_is_token_char|constructor].
Qed.
End tokens.

Section tokens_more.
Context (h : host).

Lemma literal_token_chars (s : string) :
  bool_decide (Forall token_char (String.list_ascii_of_string s)) = true →
  Forall token_char (String.list_ascii_of_string s).
Proof. apply bool_decide_eq_true. Qed.

Lemma replace_all_chars class by_ s :
  String.list_ascii_of_string (replace_all class by_ s)
  = (λ c, if class c then by_ else c) <$> String.list_ascii_of_string s.
Proof. induction s as [|a s IH]; simpl; [done|by rewrite IH]. Qed.

(** X13. Whatever the date, the time stamp of a backup's name holds
    nothing but digits, '-', '+', 'T' and 'Z': no colon, no dot and no
    path separator is left in it. *)
Theorem timestamp_is_a_file_name :
  Forall token_char (String.list_ascii_of_string (timestamp h)).
Proof.
  unfold timestamp, toISOString, iso_year.
  rewrite replace_all_chars.
  assert (∀ l, Forall (λ c, token_char c ∨ c = ":"%char ∨ c = "."%char) l →
               Forall token_char ((λ c, if colon_or_dot c then "-"%char else c) <$> l))
    as Hreplace.
  { intros l Hl. apply Forall_fmap. eapply Forall_impl; [exact Hl|].
    intros c [Hc|[->| ->]]; simpl; [|by (refine (bool_decide_unpack _ _); vm_compute)..].
    unfold colon_or_dot. case_bool_decide; [|done].
    refine (bool_decide_unpack _ _); vm_compute; exact I. }
  apply Hreplace.
  assert (∀ width x, Forall (λ c, token_char c ∨ c = ":"%char ∨ c = "."%char)
                       (String.list_ascii_of_string (pad width x))) as Hpad.
  { intros width x. eapply Forall_impl; [apply pad_token_chars|]. auto. }
  assert (∀ c : ascii, bool_decide (token_char c ∨ c = ":"%char ∨ c = "."%char) → 
            ∀ l, Forall (λ c, token_char c ∨ c = ":"%char ∨ c = "."%char) l →
            Forall (λ c, token_char c ∨ c = ":"%char ∨ c = "."%char) (c :: l)) as Hlit.
  { intros c Hc%bool_decide_unpack l Hl. by constructor. }
  rewrite !chars_append, !Forall_app.
  split_and!; try apply Hpad;
    try (simpl; repeat (apply Hlit; [by vm_compute|]); constructor).
  case_bool_decide; [apply Hpad|].
  rewrite chars_append, Forall_app. split; [|apply Hpad].
  case_bool_decide; simpl; (apply Hlit; [by vm_compute|constructor]).
Qed.
End tokens_more.

Section regular_expressions.
Import Schema Language.
Implicit Types (r : regex) (s : string) (c : ascii).

Lemma append_nil s : "" +:+ s = s.
Proof. reflexivity. Qed.

Lemma append_cons c s t : String c s +:+ t = String c (s +:+ t).
Proof. reflexivity. Qed.

Lemma append_empty s1 s2 : s1 +:+ s2 = "" → s1 = "" ∧ s2 = "".
Proof. destruct s1; [by rewrite append_nil|by rewrite append_cons]. Qed.

Lemma append_empty_r s : s +:+ "" = s.
Proof. induction s as [|a s IH]; [done|]. by rewrite append_cons, IH. Qed.

Lemma append_assoc s1 s2 s3 : (s1 +:+ s2) +:+ s3 = s1 +:+ s2 +:+ s3.
Proof. induction s1 as [|a s1 IH]; [done|]. by rewrite !append_cons, IH. Qed.

Lemma nullable_spec r : nullable r = true ↔ lang r "".
Proof.
  split.
  - induction r; simpl; intros H; try done.
    + constructor.
    + apply andb_true_iff in H as [H1 H2].
      by apply (lang_Seq _ _ "" ""); auto.
    + apply orb_true_iff in H as [H|H]; [apply lang_Alt_l|apply lang_Alt_r]; auto.
    + constructor.
  - intros H. remember "" as s eqn:Hs.
    induction H; simpl; try done.
    + apply append_empty in Hs as [-> ->]. rewrite IHlang1, IHlang2; done.
    + rewrite IHlang; done.
    + rewrite IHlang, orb_true_r; done.
Qed.

Lemma lang_Star_first r c s :
  lang (Star r) (String c s) →
  ∃ s1 s2, s = s1 +:+ s2 ∧ lang r (String c s1) ∧ lang (Star r) s2.
Proof.
  intros H. remember (Star r) as r' eqn:Hr. remember (String c s) as s' eqn:Hs.
  revert s Hs.
  induction H as [| | | | | |r0 s1 s2 H1 _ H2 IH2]; try discriminate Hr.
  { by intros. }
  intros s Hs. injection Hr as ->.
  destruct s1 as [|a s1].
  - rewrite append_nil in Hs. by apply IH2.
  - rewrite append_cons in Hs. injection Hs as -> <-. eauto.
Qed.

Lemma lang_Seq_inv r1 r2 s :
  lang (Seq r1 r2) s ↔ ∃ s1 s2, s = s1 +:+ s2 ∧ lang r1 s1 ∧ lang r2 s2.
Proof.
  split; [inversion 1; subst; eauto|].
  intros (s1 & s2 & -> & H1 & H2). by constructor.
Qed.

Lemma lang_Alt_inv r1 r2 s : lang (Alt r1 r2) s ↔ lang r1 s ∨ lang r2 s.
Proof.
  split; [inversion 1; subst; auto|].
  intros [H|H]; [by apply lang_Alt_l|by apply lang_Alt_r].
Qed.

Lemma lang_Class_inv member s :
  lang (Class member) s ↔ ∃ c, s = String c "" ∧ member c = true.
Proof.
  split; [inversion 1; subst; eauto|].
  intros (c & -> & H). by constructor.
Qed.

Lemma derive_spec r c s : lang (derive c r) s ↔ lang r (String c s).
Proof.
  revert s. induction r as [| |member|r1 IH1 r2 IH2|r1 IH1 r2 IH2|r IH];
    intros s; simpl.
  - split; inversion 1.
  - split; inversion 1.
  - rewrite lang_Class_inv. destruct (member c) eqn:Hc.
    + split; [inversion 1; subst; eauto|].
      intros (c' & [= -> ->] & _). constructor.
    + split; [inversion 1|]. intros (c' & [= -> ->] & ?). congruence.
  - assert (lang (Seq (derive c r1) r2) s ↔
            ∃ s1 s2, s = s1 +:+ s2 ∧ lang r1 (String c s1) ∧ lang r2 s2) as Hfirst.
    { rewrite lang_Seq_inv. by setoid_rewrite IH1. }
    assert (lang (Seq r1 r2) (String c s) ↔
            (∃ s1 s2, s = s1 +:+ s2 ∧ lang r1 (String c s1) ∧ lang r2 s2) ∨
            lang r1 "" ∧ lang r2 (String c s)) as Hseq.
    { rewrite lang_Seq_inv. split.
      - intros ([|a s1] & s2 & Heq & H1 & H2).
        + rewrite append_nil in Heq. right. by subst.
        + rewrite append_cons in Heq. injection Heq as -> ->. left. eauto.
      - intros [(s1 & s2 & -> & H1 & H2)|[H1 H2]].
        + by exists (String c s1), s2.
        + by exists "", (String c s). }
    rewrite Hseq. destruct (nullable r1) eqn:Hnull.
    + rewrite lang_Alt_inv, Hfirst, IH2, <- nullable_spec, Hnull. tauto.
    + rewrite Hfirst, <- nullable_spec, Hnull. split; [by left|].
      intros [H|[H _]]; done.
  - rewrite !lang_Alt_inv, IH1, IH2. done.
  - rewrite lang_Seq_inv. split.
    + intros (s1 & s2 & -> & H1 & H2).
      apply (lang_Star_more _ (String c s1)); [by apply IH|done].
    + intros (s1 & s2 & -> & H1 & H2)%lang_Star_first.
      exists s1, s2. by rewrite IH.
Qed.

(** The matcher decides the language. *)
Lemma matches_spec r s : matches r s = true ↔ lang r s.
Proof.
  revert r. induction s as [|c s IH]; intros r; simpl.
  - apply nullable_spec.
  - rewrite IH. apply derive_spec.
Qed.
End regular_expressions.

Section version.
Import Schema Language.

Lemma lang_Empty_inv s : lang Empty s ↔ s = "".
Proof. split; [by inversion 1|intros ->; constructor]. Qed.

Lemma lang_Star_Class member s :
  lang (Star (Class member)) s
  ↔ Forall (λ c, member c = true) (String.list_ascii_of_string s).
Proof.
  split.
  - intros H. remember (Star (Class member)) as r eqn:Hr.
    induction H as [| | | | | |r0 s1 s2 H1 _ H2 IH2]; try discriminate Hr.
    + constructor.
    + injection Hr as ->. apply lang_Class_inv in H1 as (c & -> & Hc).
      rewrite append_cons, append_nil. simpl. constructor; auto.
  - induction s as [|c s IH]; simpl; intros H.
    + constructor.
    + apply Forall_cons in H as [Hc Hs].
      apply (lang_Star_more _ (String c "") s); [by constructor|auto].
Qed.

Lemma lang_digits s : lang (Plus digit_class) s ↔ digits s.
Proof.
  unfold Plus, digit_class, digits. rewrite lang_Seq_inv. split.
  - intros (s1 & s2 & -> & (c & -> & Hc)%lang_Class_inv & Hrest%lang_Star_Class).
    rewrite append_cons, append_nil. split; [done|]. simpl.
    constructor; [by apply bool_decide_eq_true in Hc|].
    eapply Forall_impl; [exact Hrest|]. intros a Ha. by apply bool_decide_eq_true in Ha.
  - intros [Hne Hall]. destruct s as [|c s]; [done|]. simpl in Hall.
    apply Forall_cons in Hall as [Hc Hs].
    exists (String c ""), s. split_and!; [done| |].
    + constructor. by apply bool_decide_eq_true.
    + apply lang_Star_Class. eapply Forall_impl; [exact Hs|].
      intros a Ha. by apply bool_decide_eq_true.
Qed.

Lemma lang_dot s : lang dot s ↔ s = ".".
Proof.
  unfold dot. rewrite lang_Class_inv. split.
  - intros (c & -> & Hc%bool_decide_eq_true). by subst.
  - intros ->. eexists. split; [done|]. by apply bool_decide_eq_true.
Qed.

Lemma version_pattern_semver s : test version_pattern s = true ↔ semver s.
Proof.
  unfold test, version_pattern, semver. simpl.
  rewrite matches_spec.
  repeat setoid_rewrite lang_Seq_inv.
  repeat setoid_rewrite lang_Empty_inv.
  repeat setoid_rewrite lang_dot.
  assert (∀ t, (∃ s1 s2, t = s1 +:+ s2 ∧ lang digit_class s1
                         ∧ lang (Star digit_class) s2) ↔ digits t) as Hdigits.
  { intros t. rewrite <- lang_digits. unfold Plus. by rewrite lang_Seq_inv. }
  repeat setoid_rewrite Hdigits.
  split.
  - intros (? & ? & -> & -> & ? & ? & -> &
            (major & ? & -> & Hmajor & ? & ? & -> & -> & minor & ? & -> & Hminor
               & ? & patch & -> & -> & Hpatch) & ->).
    exists major, minor, patch. rewrite append_nil, append_empty_r. done.
  - intros (major & minor & patch & -> & Hmajor & Hminor & Hpatch).
    eexists "", _. split_and!; [done|done|].
    eexists _, "". split_and!; [by rewrite append_empty_r| |done].
    eexists major, _. split_and!; [done|done|].
    eexists ".", _. split_and!; [done|done|].
    eexists minor, _. split_and!; [done|done|].
    eexists ".", patch. done.
Qed.
End version.

Section validity.
Import Schema Language.

Lemma validate_Object type required properties additional items enum pat members :
  validate (Keywords type required properties additional items enum pat)
           (Object members)
  = (match type with Some t => has_type t (Object members) | None => true end
     && (forallb (λ key, bool_decide (is_Some (get key members))) required
         && forallb (λ p : string * schema,
                       match get p.1 members with
                       | Some member => validate p.2 member
                       | None => true
                       end) properties
         && match additional with
            | Some sub =>
                forallb (λ member : string * value,
                           bool_decide (member.1 ∈ properties.*1)
                           || validate sub member.2) members
            | None => true
            end)
     && match enum with Some _ => false | None => true end).
Proof.
  cbn [validate]. repeat f_equal.
  induction properties as [|[key sub] rest IH]; [done|].
  cbn [forallb fst snd]. by rewrite IH.
Qed.

Lemma validate_of_type t v : validate (of_type t) v = has_type t v.
Proof. unfold of_type. destruct v; cbn [validate]; by rewrite ?andb_true_r. Qed.

Lemma has_type_string v : has_type TString v = true ↔ is_string v.
Proof. split; [destruct v; try done; by eexists|by intros [s ->]]. Qed.

Lemma has_type_boolean v : has_type TBoolean v = true ↔ is_boolean v.
Proof. split; [destruct v; try done; by eexists|by intros [b ->]]. Qed.

(** A property check on a member that may be missing. *)
Lemma optional_spec (check : value → bool) (P : value → Prop) member :
  (∀ v, check v = true ↔ P v) →
  match member with Some v => check v | None => true end = true
  ↔ optional P member.
Proof. intros Hcheck. destruct member; simpl; [apply Hcheck|done]. Qed.

(** A required member with a property check. *)
Lemma required_spec (check : value → bool) (P : value → Prop) member :
  (∀ v, check v = true ↔ P v) →
  bool_decide (is_Some member) = true
  ∧ match member with Some v => check v | None => true end = true
  ↔ ∃ v, member = Some v ∧ P v.
Proof.
  intros Hcheck. rewrite bool_decide_eq_true. split.
  - intros [[v ->] Hv]. exists v. split; [done|by apply Hcheck].
  - intros (v & -> & Hv). split; [by eexists|by apply Hcheck].
Qed.

Lemma check_string v : validate (of_type TString) v = true ↔ is_string v.
Proof. rewrite validate_of_type. apply has_type_string. Qed.

Lemma check_boolean v : validate (of_type TBoolean) v = true ↔ is_boolean v.
Proof. rewrite validate_of_type. apply has_type_boolean. Qed.

Lemma check_level v :
  validate (Keywords (Some TString) [] [] None None
                     (Some ["error"; "warning"; "info"; "hint"]) None) v = true
  ↔ ∃ level, v = Str level ∧ level ∈ ["error"; "warning"; "info"; "hint"].
Proof.
  split.
  - destruct v as [| | |text| |]; cbn [validate has_type]; try done.
    intros Hin. exists text. split; [done|].
    by apply andb_true_iff in Hin as [_ Hin%bool_decide_eq_true].
  - intros (level & -> & Hin). cbn [validate has_type].
    by rewrite bool_decide_eq_true_2.
Qed.

Lemma not_an_object required properties additional items enum pat v :
  (∀ members, v ≠ Object members) →
  validate (Keywords (Some TObject) required properties additional items enum pat) v
  = false.
Proof. intros Hv. destruct v; try done. by destruct (Hv members). Qed.

Lemma check_fix v :
  validate (Keywords (Some TObject) ["replace"]
              [ ("replace", of_type TString); ("message", of_type TString) ]
              None None None None) v = true
  ↔ valid_fix v.
Proof.
  destruct v as [| | | | |members];
    try (split; [by rewrite not_an_object|by intros (? & ? & _)]).
  rewrite validate_Object. cbn [forallb fst snd has_type].
  rewrite !andb_true_r, andb_true_l, !andb_true_iff.
  rewrite (optional_spec _ _ (get "message" members) check_string).
  unfold valid_fix. split.
  - intros (Hthere & Hreplace & Hmessage).
    destruct (proj1 (required_spec _ _ _ check_string) (conj Hthere Hreplace))
      as (v & Hv & s & ->).
    eauto 10.
  - intros (? & [= <-] & [s Hs] & Hm).
    destruct (proj2 (required_spec _ _ (get "replace" members) check_string))
      as [? ?]; [|done].
    exists (Str s). split; [done|by exists s].
Qed.

Lemma rule_valid v : validate rule v = true ↔ valid_rule v.
Proof.
  unfold rule.
  destruct v as [| | | | |members];
    try (split; [by rewrite not_an_object|by intros (? & ? & _)]).
  rewrite validate_Object. cbn [forallb fst snd has_type].
  rewrite !andb_true_r, andb_true_l, !andb_true_iff.
  rewrite (optional_spec _ _ (get "pattern" members) check_string).
  rewrite (optional_spec _ _ (get "fix" members) check_fix).
  rewrite (optional_spec _ _ (get "disabled" members) check_boolean).
  unfold valid_rule. split.
  - intros ((Hid & Hlevel & Hdescription)
            & Mid & Mlevel & Mdescription & Hpattern & Hfix & Hdisabled).
    destruct (proj1 (required_spec _ _ _ check_string) (conj Hid Mid))
      as (? & Hv1 & s1 & ->).
    destruct (proj1 (required_spec _ _ _ check_level) (conj Hlevel Mlevel))
      as (? & Hv2 & level & -> & Hin).
    destruct (proj1 (required_spec _ _ _ check_string)
                (conj Hdescription Mdescription)) as (? & Hv3 & s3 & ->).
    exists members. split_and!; eauto.
  - intros (? & [= <-] & [s1 H1] & (level & H2 & Hin) & [s3 H3] & Hp & Hf & Hd).
    destruct (proj2 (required_spec _ _ (get "id" members) check_string))
      as [? ?]; [by exists (Str s1); split; [|exists s1]|].
    destruct (proj2 (required_spec _ _ (get "level" members) check_level))
      as [? ?]; [by exists (Str level); split; [|exists level]|].
    destruct (proj2 (required_spec _ _ (get "description" members) check_string))
      as [? ?]; [by exists (Str s3); split; [|exists s3]|].
    done.
Qed.

Lemma check_rules v :
  validate (Keywords (Some TArray) [] [] None (Some rule) None None) v = true
  ↔ ∃ rules, v = Array rules ∧ Forall valid_rule rules.
Proof.
  destruct v as [| | | |elements|];
    try (split; [done|by intros (? & ? & _)]).
  cbn [validate has_type]. rewrite andb_true_r, andb_true_l. split.
  - intros Hall. exists elements. split; [done|].
    apply Forall_forall. intros r Hr%list_elem_of_In.
    apply rule_valid. by apply (proj1 (forallb_forall _ _) Hall).
  - intros (? & [= <-] & Hall). apply forallb_forall.
    intros r Hr%list_elem_of_In. apply rule_valid.
    by apply (proj1 (Forall_forall _ _) Hall).
Qed.

Lemma language_valid v : validate languageConfig v = true ↔ valid_language v.
Proof.
  unfold languageConfig.
  destruct v as [| | | | |members];
    try (split; [by rewrite not_an_object|by intros (? & ? & ? & _)]).
  rewrite validate_Object. cbn [forallb fst snd has_type].
  rewrite !andb_true_r, andb_true_l, !andb_true_iff.
  unfold valid_language. split.
  - intros Hrules.
    destruct (proj1 (required_spec _ _ _ check_rules) Hrules)
      as (? & Hv & rules & -> & Hall).
    eauto 10.
  - intros (? & rules & [= <-] & Hrules & Hall).
    apply (proj2 (required_spec _ _ (get "rules" members) check_rules)).
    exists (Array rules). split; [done|]. by exists rules.
Qed.

Lemma check_version v :
  validate (Keywords (Some TString) [] [] None None None (Some version_pattern)) v
  = true
  ↔ ∃ version, v = Str version ∧ semver version.
Proof.
  destruct v as [| | |text| |];
    try (split; [done|by intros (? & ? & _)]).
  cbn [validate has_type]. rewrite andb_true_r, andb_true_l.
  rewrite version_pattern_semver. split; [by eauto|].
  by intros (? & [= <-] & ?).
Qed.

Lemma check_languages v :
  validate (Keywords (Some TObject) [] [] (Some languageConfig) None None None) v
  = true
  ↔ ∃ languages,
      v = Object languages ∧
      Forall (λ language : string * value, valid_language language.2) languages.
Proof.
  destruct v as [| | | | |members];
    try (split; [by rewrite not_an_object|by intros (? & ? & _)]).
  rewrite validate_Object. cbn [forallb fst snd has_type fmap list_fmap].
  rewrite !andb_true_r, !andb_true_l. split.
  - intros Hall. exists members. split; [done|].
    apply Forall_forall. intros member Hin%list_elem_of_In.
    apply language_valid.
    pose proof (proj1 (forallb_forall _ _) Hall member Hin) as Hm.
    apply orb_true_iff in Hm as [Hm%bool_decide_eq_true|Hm]; [|done].
    by apply elem_of_nil in Hm.
  - intros (? & [= <-] & Hall). apply forallb_forall.
    intros member Hin%list_elem_of_In. apply orb_true_iff. right.
    apply language_valid. by apply (proj1 (Forall_forall _ _) Hall).
Qed.

(** X17. The schema accepts a document exactly when it is an object
    whose [version] is a string of three dotted groups of digits and
    whose [languages] is an object each of whose members is an object
    with an array [rules] of valid rules.  Other members are allowed. *)
Theorem document_schema_accepts v :
  validate cursorrules v = true ↔ valid_document v.
Proof.
  unfold cursorrules.
  destruct v as [| | | | |members];
    try (split; [by rewrite not_an_object|by intros (? & ? & ? & ? & _)]).
  rewrite validate_Object. cbn [forallb fst snd has_type].
  rewrite !andb_true_r, andb_true_l, !andb_true_iff.
  unfold valid_document. split.
  - intros ((Hversion & Hlanguages) & Mversion & Mlanguages).
    destruct (proj1 (required_spec _ _ _ check_version) (conj Hversion Mversion))
      as (? & Hv1 & version & -> & Hsemver).
    destruct (proj1 (required_spec _ _ _ check_languages)
                (conj Hlanguages Mlanguages))
      as (? & Hv2 & languages & -> & Hall).
    exists members, version, languages. done.
  - intros (? & version & languages & [= <-] & Hv & Hsemver & Hl & Hall).
    destruct (proj2 (required_spec _ _ (get "version" members) check_version))
      as [? ?]; [by exists (Str version); split; [|exists version]|].
    destruct (proj2 (required_spec _ _ (get "languages" members) check_languages))
      as [? ?]; [by exists (Object languages); split; [|exists languages]|].
    done.
Qed.
End validity.

Section description.
Implicit Types (s t : string) (P : ascii → Prop).

Lemma before_chars sep s :
  Forall (λ c, c ≠ sep) (String.list_ascii_of_string (before sep s)).
Proof.
  induction s as [|a s IH]; simpl; [constructor|].
  destruct (decide (a = sep)); simpl; by constructor.
Qed.

(** Dropping leading characters leaves the end of the string. *)
Lemma drop_leading_suffix ws skip s :
  ∃ dropped, s = dropped +:+ drop_leading ws skip s.
Proof.
  revert skip. induction s as [|a s IH]; intros skip; simpl.
  - by exists "".
  - assert (∀ k, ∃ dropped, String a s = dropped +:+ drop_leading ws k s) as Hdrop.
    { intros k. destruct (IH k) as [dropped Hd].
      exists (String a dropped). rewrite append_cons. by rewrite <- Hd. }
    destruct skip as [|k]; [|apply Hdrop].
    destruct (head_length ws (String a s)) as [|k]; [by exists ""|apply Hdrop].
Qed.

Lemma rev_app_chars s t :
  String.list_ascii_of_string (String.rev_app s t)
  = rev (String.list_ascii_of_string s) ++ String.list_ascii_of_string t.
Proof.
  revert t. induction s as [|a s IH]; intros t; simpl; [done|].
  rewrite IH. simpl. by rewrite <- app_assoc.
Qed.

Lemma rev_chars s :
  String.list_ascii_of_string (String.rev s) = rev (String.list_ascii_of_string s).
Proof. unfold String.rev. rewrite rev_app_chars. simpl. by rewrite app_nil_r. Qed.

Lemma chars_inj s t :
  String.list_ascii_of_string s = String.list_ascii_of_string t → s = t.
Proof.
  revert t. induction s as [|a s IH]; intros [|b t]; simpl; try done.
  intros [= -> Heq]. by rewrite (IH t).
Qed.

Lemma rev_append s t : String.rev (s +:+ t) = String.rev t +:+ String.rev s.
Proof.
  apply chars_inj. by rewrite chars_append, !rev_chars, chars_append, rev_app_distr.
Qed.

Lemma rev_rev s : String.rev (String.rev s) = s.
Proof. apply chars_inj. by rewrite !rev_chars, rev_involutive. Qed.

(** What [trim] returns is a part of its argument. *)
Lemma trim_within s : ∃ before_ after, s = before_ +:+ trim s +:+ after.
Proof.
  unfold trim, trimStart, trimEnd.
  destruct (drop_leading_suffix white_space 0 s) as [l Hl].
  destruct (drop_leading_suffix (String.rev <$> white_space) 0
              (String.rev (drop_leading white_space 0 s))) as [r Hr].
  exists l, (String.rev r).
  rewrite <- rev_append, <- Hr, rev_rev. done.
Qed.
End description.

Lemma getTemplatesInCategory_returns extensionPath category w w' templates :
  getTemplatesInCategory extensionPath category w = (w', Return templates) →
  ∃ text,
    files w !! joinPath (categoryPath extensionPath category) ".cursorrules"
    = Some (File text) ∧
    w' = w ∧
    templates = [ {| id := category; name := category; category := category;
                     description := trim (before LF text); content := text |} ].
Proof.
  unfold getTemplatesInCategory, try_catch, mbind, M_bind, readFile.
  destruct (files w !! joinPath (categoryPath extensionPath category) ".cursorrules")
    as [[text|]|]; [|done..].
  rewrite split_first. intros [= <- <-]. by exists text.
Qed.

(** X6. The description of a template that [getTemplatesInCategory]
    returns is a part of the first line of its content and holds no line
    feed. *)
Theorem description_is_within_the_first_line extensionPath category w w' templates :
  getTemplatesInCategory extensionPath category w = (w', Return templates) →
  Forall (λ t,
            (∃ before_ after,
               before LF (content t) = before_ +:+ description t +:+ after) ∧
            Forall (λ c, c ≠ LF) (String.list_ascii_of_string (description t)))
         templates.
Proof.
  intros (text & _ & _ & ->)%getTemplatesInCategory_returns.
  constructor; [|constructor]. simpl.
  destruct (trim_within (before LF text)) as (l & r & Heq).
  split; [by exists l, r|].
  pose proof (before_chars LF text) as Hall.
  rewrite Heq, !chars_append, !Forall_app in Hall. tauto.
Qed.

Lemma chronological_Eq a b : chronological a b = Eq → a = b.
Proof.
  destruct a as [y1 mo1 d1 h1 mi1 s1 ms1], b as [y2 mo2 d2 h2 mi2 s2 ms2].
  unfold chronological. simpl.
  repeat match goal with
         | |- context [(?x ?= ?y)%Z] =>
             destruct (Z.compare_spec x y); simpl; try discriminate; subst
         end.
  done.
Qed.

Lemma backupFileName_compare h1 h2 :
  valid (now h1) → valid (now h2) →
  (0 ≤ year (now h1) ≤ 9999)%Z → (0 ≤ year (now h2) ≤ 9999)%Z →
  String.compare (backupFileName h1) (backupFileName h2)
  = chronological (now h1) (now h2).
Proof.
  intros Hv1 Hv2 Hy1 Hy2. unfold backupFileName.
  rewrite compare_append by done. rewrite compare_refl. cbn [lex].
  rewrite compare_append by (by rewrite !length_timestamp).
  rewrite compare_refl, lex_Eq_r. by apply timestamp_compare.
Qed.

(** X14. Backups made at two different instants of the years 0 to 9999
    have different names, and so different first places beside any
    target. *)
Theorem backups_of_different_instants_differ h1 h2 :
  valid (now h1) → valid (now h2) →
  (0 ≤ year (now h1) ≤ 9999)%Z → (0 ≤ year (now h2) ≤ 9999)%Z →
  now h1 ≠ now h2 →
  backupFileName h1 ≠ backupFileName h2 ∧
  ∀ target, siblingBackupUri h1 target ≠ siblingBackupUri h2 target.
Proof.
  intros Hv1 Hv2 Hy1 Hy2 Hne.
  assert (backupFileName h1 ≠ backupFileName h2) as Hnames.
  { intros Heq. apply Hne, chronological_Eq.
    rewrite <- backupFileName_compare by done.
    rewrite Heq. apply compare_refl. }
  split; [done|]. intros target. unfold siblingBackupUri, joinPath.
  by intros [_ ?]%app_inj_tail.
Qed.

(** * Further properties of the service *)

(** ** The template repository *)

(** X4. Where the rules folder is a directory, [getTemplateCategories]
    returns, without repetition, exactly the names of the directories
    directly in it (files are left out) and changes nothing; where it is
    not a directory, the call throws 'Failed to read rule categories:
    ...'. *)
Theorem categories_are_the_directories extensionPath w :
  (files w !! rulesPath extensionPath = Some Dir →
   ∃ names,
     getTemplateCategories extensionPath w = (w, Return names) ∧
     NoDup names ∧
     ∀ name, name ∈ names
             ↔ files w !! joinPath (rulesPath extensionPath) name = Some Dir) ∧
  (files w !! rulesPath extensionPath ≠ Some Dir →
   ∃ reason,
     getTemplateCategories extensionPath w
     = (w, Throw (Error ("Failed to read rule categories: " +:+ reason)))).
Proof. apply getTemplateCategories_lists. Qed.

Lemma categories_are_the_directories_witness :
  ∃ names,
    getTemplateCategories Scenarios.extensionPath
      MoreScenarios.library_with_empty_category
    = (MoreScenarios.library_with_empty_category, Return names) ∧
    NoDup names ∧
    ∀ name, name ∈ names
            ↔ files MoreScenarios.library_with_empty_category
                !! joinPath (rulesPath Scenarios.extensionPath) name = Some Dir.
Proof.
  apply (proj1 (categories_are_the_directories Scenarios.extensionPath
                  MoreScenarios.library_with_empty_category)).
  vm_compute. reflexivity.
Defined.

Lemma category_without_template_file_witness :
  ∃ names reason,
    getTemplateCategories Scenarios.extensionPath
      MoreScenarios.library_with_empty_category
    = (MoreScenarios.library_with_empty_category, Return names) ∧
    "drafts" ∈ names ∧
    getTemplatesInCategory Scenarios.extensionPath "drafts"
      MoreScenarios.library_with_empty_category
    = (MoreScenarios.library_with_empty_category,
       Throw (Error ("Failed to read templates in category " +:+ "drafts"
                       +:+ ": " +:+ reason))).
Proof.
  apply (category_without_template_file Scenarios.extensionPath "drafts"
           MoreScenarios.library_with_empty_category).
  - vm_compute. reflexivity.
  - reflexivity.
  - vm_compute. reflexivity.
  - intros text. vm_compute. discriminate.
Defined.

Lemma description_is_within_the_first_line_witness :
  Forall (λ t,
            (∃ before_ after,
               before LF (content t) = before_ +:+ description t +:+ after) ∧
            Forall (λ c, c ≠ LF) (String.list_ascii_of_string (description t)))
         [ mkRuleTemplate "web" "web" "web" "" Scenarios.blank_then_hello ].
Proof.
  apply (description_is_within_the_first_line Scenarios.extensionPath "web"
           Scenarios.library Scenarios.library).
  vm_compute. reflexivity.
Defined.

(** X7. Whatever the three public functions throw is an [Error] whose
    message starts with the function's own text: 'Failed to read rule
    categories: ', 'Failed to read templates in category <c>: ',
    'Failed to save template: '; the two functions that read the
    repository leave everything as it was when they throw. *)
Theorem failures_are_wrapped h extensionPath :
  (∀ w w' e,
     getTemplateCategories extensionPath w = (w', Throw e) →
     w' = w ∧
     ∃ reason, e = Error ("Failed to read rule categories: " +:+ reason)) ∧
  (∀ category w w' e,
     getTemplatesInCategory extensionPath category w = (w', Throw e) →
     w' = w ∧
     ∃ reason, e = Error ("Failed to read templates in category " +:+ category
                            +:+ ": " +:+ reason)) ∧
  (∀ template targetUri w w' e,
     saveTemplateToWorkspace h template targetUri w = (w', Throw e) →
     ∃ reason, e = Error ("Failed to save template: " +:+ reason)).
Proof.
  split_and!.
  - intros w w' e. unfold getTemplateCategories, try_catch, readdir.
    unfold mbind, M_bind, mret, M_ret, throw.
    destruct (is_dir (files w) (rulesPath extensionPath)); [done|].
    intros [= <- <-]. split; [done|by eexists].
  - intros category w w' e.
    unfold getTemplatesInCategory, try_catch, readFile.
    unfold mbind, M_bind, mret, M_ret, throw.
    destruct (files w !! _) as [[text|]|];
      [destruct (split LF text !! 0%nat)|..]; try done;
      intros [= <- <-]; (split; [done|by eexists]).
  - intros template targetUri w w' e. apply save_throws_wrapped.
Qed.

Lemma failures_are_wrapped_witness :
  Scenarios.project = Scenarios.project ∧
  ∃ reason,
    Error ("Failed to read rule categories: "
             +:+ "ENOENT: no such file or directory, scandir")
    = Error ("Failed to read rule categories: " +:+ reason).
Proof.
  apply (proj1 (failures_are_wrapped
                  (Scenarios.user None Scenarios.nothing_refused)
                  Scenarios.extensionPath) Scenarios.project).
  vm_compute. reflexivity.
Defined.

(** ** The backup directory *)

Lemma ensureBackupDirectory_is_careful_witness :
  (∀ k n, files Scenarios.project !! k = Some n →
          files MoreScenarios.project_with_archive !! k = Some n) ∧
  (is_Some (files Scenarios.project !! backupDirectory ["project"]) →
   MoreScenarios.project_with_archive = Scenarios.project ∧
   Return (backupDirectory ["project"]) = Return (backupDirectory ["project"])) ∧
  (Return (backupDirectory ["project"]) = Return (backupDirectory ["project"]) ∨
   (∃ e, Return (backupDirectory ["project"]) = Throw e) ∧
   MoreScenarios.project_with_archive = Scenarios.project) ∧
  (Return (backupDirectory ["project"]) = Return (backupDirectory ["project"]) →
   (files Scenarios.project !! backupDirectory ["project"] = None →
    files MoreScenarios.project_with_archive !! backupDirectory ["project"]
    = Some Dir) ∧
   ensureBackupDirectory (Scenarios.user None Scenarios.nothing_refused)
     ["project"] MoreScenarios.project_with_archive
   = (MoreScenarios.project_with_archive, Return (backupDirectory ["project"]))).
Proof.
  apply (ensureBackupDirectory_is_careful
           (Scenarios.user None Scenarios.nothing_refused) ["project"]
           Scenarios.project MoreScenarios.project_with_archive
           (Return (backupDirectory ["project"]))).
  vm_compute. reflexivity.
Defined.

(** A file where the directory would be: the call returns the path and
    leaves the file. *)
Example ensureBackupDirectory_with_a_file_there :
  ensureBackupDirectory (Scenarios.user None Scenarios.nothing_refused)
    ["project"] MoreScenarios.project_with_file_as_archive
  = (MoreScenarios.project_with_file_as_archive,
     Return ["project"; ".cursorrules-backup"]).
Proof. by vm_compute. Qed.

(** X9. A move that nothing hinders: the backup is a file whose name is
    free in the backup directory, which is there or can be made, and the
    copy and the deletion are not refused.  Then [moveToBackupDirectory]
    returns, the backup is gone from its first place and stands with its
    content in the backup directory, every other entry is as it was, and
    nothing is written to the console. *)
Theorem a_free_name_lets_the_backup_move h backupUri w c folder others fileName :
  workspaceFolders h = Some (folder :: others) →
  files w !! backupUri = Some (File c) →
  pop backupUri = Some fileName → fileName ≠ "" →
  (files w !! backupDirectory folder = Some Dir ∨
   files w !! backupDirectory folder = None ∧
   no_file_on (files w) (backupDirectory folder) = true ∧
   fault h (OpCreateDirectory (backupDirectory folder)) = false) →
  files w !! joinPath (backupDirectory folder) fileName = None →
  ¬ backupUri `prefix_of` joinPath (backupDirectory folder) fileName →
  ¬ joinPath (backupDirectory folder) fileName `prefix_of` backupUri →
  has_children (files w) backupUri = false →
  fault h (OpCopy backupUri (joinPath (backupDirectory folder) fileName)) = false →
  fault h (OpDelete backupUri) = false →
  ∃ w',
    moveToBackupDirectory h backupUri w = (w', Return ()) ∧
    files w' !! backupUri = None ∧
    files w' !! joinPath (backupDirectory folder) fileName = Some (File c) ∧
    files w' !! backupDirectory folder = Some Dir ∧
    (∀ k n, k ≠ backupUri → files w !! k = Some n → files w' !! k = Some n) ∧
    console w' = console w ∧
    notifications w' = notifications w ∧
    editors w' = editors w.
Proof.
  intros Hfolders Hfile Hpop Hname Hdir Hfree Hpre1 Hpre2 Hleaf Hcopy Hdelete.
  eexists. split.
  { by eapply moveToBackupDirectory_moves. }
  assert (backupUri ≠ joinPath (backupDirectory folder) fileName) as Hne1
    by (intros E; apply Hpre1; by rewrite <- E).
  assert (backupUri ≠ backupDirectory folder) as Hne2.
  { intros E. apply Hpre1. rewrite E. unfold joinPath. by apply prefix_app_r. }
  assert (joinPath (backupDirectory folder) fileName ≠ backupDirectory folder)
    as Hne3.
  { unfold joinPath. intros E. apply (f_equal length) in E.
    rewrite length_app in E. simpl in E. lia. }
  simpl. split_and!; try done.
  - apply lookup_delete_eq.
  - rewrite lookup_delete_ne by done. apply lookup_insert_eq.
  - rewrite lookup_delete_ne, lookup_insert_ne by done.
    destruct Hdir as [Hdir|(Hnone & Hfiles & _)].
    + by rewrite Hdir.
    + rewrite Hnone, lookup_mkdirp.
      by rewrite decide_True by apply backupDirectory_in_ancestors.
  - intros k n Hk Hkn. rewrite lookup_delete_ne by done.
    assert (k ≠ joinPath (backupDirectory folder) fileName) as Hk'
      by (intros ->; by rewrite Hfree in Hkn).
    rewrite lookup_insert_ne by done.
    destruct Hdir as [Hdir|(Hnone & Hfiles & _)].
    + by rewrite Hdir.
    + rewrite Hnone. by apply mkdirp_keeps.
Qed.

Lemma a_free_name_lets_the_backup_move_witness :
  ∃ w',
    moveToBackupDirectory (Scenarios.user (Some "Replace") Scenarios.nothing_refused)
      Scenarios.beside Scenarios.project_with_backup_beside = (w', Return ()) ∧
    files w' !! Scenarios.beside = None ∧
    files w' !! joinPath (backupDirectory ["project"]) Scenarios.backup_at_noon
    = Some (File "A") ∧
    files w' !! backupDirectory ["project"] = Some Dir ∧
    (∀ k n, k ≠ Scenarios.beside →
            files Scenarios.project_with_backup_beside !! k = Some n →
            files w' !! k = Some n) ∧
    console w' = console Scenarios.project_with_backup_beside ∧
    notifications w' = notifications Scenarios.project_with_backup_beside ∧
    editors w' = editors Scenarios.project_with_backup_beside.
Proof.
  apply (a_free_name_lets_the_backup_move
           (Scenarios.user (Some "Replace") Scenarios.nothing_refused)
           Scenarios.beside Scenarios.project_with_backup_beside "A"
           ["project"] [] Scenarios.backup_at_noon).
  - reflexivity.
  - vm_compute. reflexivity.
  - reflexivity.
  - discriminate.
  - right. vm_compute. done.
  - vm_compute. reflexivity.
  - intros [rest Hrest]. vm_compute in Hrest. discriminate.
  - intros [rest Hrest]. vm_compute in Hrest. discriminate.
  - vm_compute. reflexivity.
  - reflexivity.
  - reflexivity.
Defined.

Lemma a_taken_name_stops_the_move_witness :
  ∃ w' line,
    moveToBackupDirectory (Scenarios.user (Some "Replace") Scenarios.nothing_refused)
      Scenarios.beside MoreScenarios.project_with_taken_name = (w', Return ()) ∧
    console w' = console MoreScenarios.project_with_taken_name ++ [line] ∧
    files w' !! joinPath (backupDirectory ["project"]) Scenarios.backup_at_noon
    = Some (File "older") ∧
    files w' !! Scenarios.beside = Some (File "A").
Proof.
  apply (a_taken_name_stops_the_move
           (Scenarios.user (Some "Replace") Scenarios.nothing_refused)
           Scenarios.beside MoreScenarios.project_with_taken_name "A"
           ["project"] [] Scenarios.backup_at_noon "older").
  - reflexivity.
  - vm_compute. reflexivity.
  - reflexivity.
  - vm_compute. reflexivity.
Defined.

(** ** Saving a template *)




(** X3. Without a target and without a workspace folder the save throws
    and changes nothing: with no list of folders it throws 'Failed to
    save template: No workspace folder found', with an empty list
    'Failed to save template: Cannot read properties of undefined
    (reading 'uri')'. *)
Theorem save_without_workspace h template w :
  (workspaceFolders h = None →
   saveTemplateToWorkspace h template None w
   = (w, Throw (Error "Failed to save template: No workspace folder found"))) ∧
  (workspaceFolders h = Some [] →
   saveTemplateToWorkspace h template None w
   = (w, Throw (Error ("Failed to save template: "
                         +:+ "Cannot read properties of undefined (reading 'uri')")))).
Proof.
  unfold saveTemplateToWorkspace, try_catch, mbind, M_bind, resolveTargetUri.
  by split; intros ->.
Qed.

Lemma save_without_workspace_witness :
  saveTemplateToWorkspace
    (mkHost None (Some "Replace") Scenarios.noon Scenarios.nothing_refused)
    Scenarios.T None Scenarios.project
  = (Scenarios.project,
     Throw (Error "Failed to save template: No workspace folder found")) ∧
  saveTemplateToWorkspace
    (mkHost (Some []) (Some "Replace") Scenarios.noon Scenarios.nothing_refused)
    Scenarios.T None Scenarios.project
  = (Scenarios.project,
     Throw (Error ("Failed to save template: "
                     +:+ "Cannot read properties of undefined (reading 'uri')"))).
Proof.
  split.
  - apply (proj1 (save_without_workspace
                    (mkHost None (Some "Replace") Scenarios.noon
                       Scenarios.nothing_refused)
                    Scenarios.T Scenarios.project)).
    reflexivity.
  - apply (proj2 (save_without_workspace
                    (mkHost (Some []) (Some "Replace") Scenarios.noon
                       Scenarios.nothing_refused)
                    Scenarios.T Scenarios.project)).
    reflexivity.
Defined.

(** X11. A confirmed save in a workspace folder with nothing in its way:
    the file system is well formed, [.cursorrules] is a file in the
    first workspace folder, the user answers 'Replace', nothing is
    refused, no file lies at [.cursorrules-backup] and the backup's name
    is free there.  Then [saveTemplateToWorkspace] returns, the target
    holds the template, the old content stands in the backup directory
    under the backup's name, nothing is left beside the target, every
    other entry is as it was, one message is shown, nothing is written
    to the console, and the target is opened. *)
Theorem save_replaces_and_archives h folder others w c template :
  workspaceFolders h = Some (folder :: others) →
  files w !! joinPath folder ".cursorrules" = Some (File c) →
  choice h = Some "Replace" →
  (∀ o, fault h o = false) →
  well_formed (files w) →
  (∀ text, files w !! backupDirectory folder ≠ Some (File text)) →
  files w !! joinPath (backupDirectory folder) (backupFileName h) = None →
  ∃ w',
    saveTemplateToWorkspace h template None w = (w', Return ()) ∧
    (∀ k, files w' !! k
          = if decide (k = joinPath folder ".cursorrules")
            then Some (File (content template))
            else if decide (k = joinPath (backupDirectory folder) (backupFileName h))
            then Some (File c)
            else if decide (k = backupDirectory folder) then Some Dir
            else if decide (joinPath folder (backupFileName h) `prefix_of` k)
            then None
            else files w !! k) ∧
    notifications w' = notifications w ++ ["Template saved successfully"] ∧
    console w' = console w ∧
    editors w' = editors w ++ [joinPath folder ".cursorrules"].
Proof. intros. by eapply save_in_workspace. Qed.

Lemma save_replaces_and_archives_witness :
  ∃ w',
    saveTemplateToWorkspace (Scenarios.user (Some "Replace") Scenarios.nothing_refused)
      Scenarios.T None Scenarios.project = (w', Return ()) ∧
    (∀ k, files w' !! k
          = if decide (k = joinPath ["project"] ".cursorrules")
            then Some (File (content Scenarios.T))
            else if decide (k = joinPath (backupDirectory ["project"])
                                    (backupFileName
                                       (Scenarios.user (Some "Replace")
                                          Scenarios.nothing_refused)))
            then Some (File "A")
            else if decide (k = backupDirectory ["project"]) then Some Dir
            else if decide (joinPath ["project"]
                              (backupFileName
                                 (Scenarios.user (Some "Replace")
                                    Scenarios.nothing_refused)) `prefix_of` k)
            then None
            else files Scenarios.project !! k) ∧
    notifications w'
    = notifications Scenarios.project ++ ["Template saved successfully"] ∧
    console w' = console Scenarios.project ∧
    editors w' = editors Scenarios.project ++ [joinPath ["project"] ".cursorrules"].
Proof.
  apply (save_replaces_and_archives
           (Scenarios.user (Some "Replace") Scenarios.nothing_refused)
           ["project"] [] Scenarios.project "A" Scenarios.T).
  - reflexivity.
  - vm_compute. reflexivity.
  - reflexivity.
  - reflexivity.
  - refine (bool_decide_unpack _ _). vm_compute. exact I.
  - intros text. vm_compute. discriminate.
  - vm_compute. reflexivity.
Defined.

Lemma save_keeps_the_other_files_witness :
  files (saveTemplateToWorkspace
           (Scenarios.user (Some "Replace") Scenarios.no_new_directories)
           Scenarios.T None MoreScenarios.project_with_notes).1
    !! ["project"; "notes.md"] = Some (File "notes").
Proof.
  apply (save_keeps_the_other_files
           (Scenarios.user (Some "Replace") Scenarios.no_new_directories)
           Scenarios.T None ["project"; ".cursorrules"]
           MoreScenarios.project_with_notes _
           (saveTemplateToWorkspace
              (Scenarios.user (Some "Replace") Scenarios.no_new_directories)
              Scenarios.T None MoreScenarios.project_with_notes).2).
  - reflexivity.
  - vm_compute. discriminate.
  - apply surjective_pairing.
  - vm_compute. reflexivity.
  - discriminate.
  - intros [rest Hrest]. vm_compute in Hrest. discriminate.
Defined.

(** ** The names of the backups *)

Lemma backups_of_different_instants_differ_witness :
  backupFileName (Scenarios.user_at Scenarios.noon)
  ≠ backupFileName (Scenarios.user_at Scenarios.just_after_noon) ∧
  ∀ target,
    siblingBackupUri (Scenarios.user_at Scenarios.noon) target
    ≠ siblingBackupUri (Scenarios.user_at Scenarios.just_after_noon) target.
Proof.
  apply (backups_of_different_instants_differ
           (Scenarios.user_at Scenarios.noon)
           (Scenarios.user_at Scenarios.just_after_noon)).
  - vm_compute. intuition congruence.
  - vm_compute. intuition congruence.
  - simpl. lia.
  - simpl. lia.
  - discriminate.
Defined.

(** ** The documents the schema accepts *)

Section schema_documents.
Import Schema Language.

(** X15. The pattern of [version], [^\d+\.\d+\.\d+$], accepts a string
    exactly when it is three groups of decimal digits, none of them
    empty, with a dot between them. *)
Theorem version_is_three_groups_of_digits s :
  test version_pattern s = true ↔ semver s.
Proof. apply version_pattern_semver. Qed.

Lemma version_is_three_groups_of_digits_witness : semver "1.20.3".
Proof.
  apply (proj1 (version_is_three_groups_of_digits "1.20.3")).
  vm_compute. reflexivity.
Defined.

(** X16. [definitions.rule] accepts a value exactly when it is an object
    whose [id] and [description] are strings and whose [level] is one of
    'error', 'warning', 'info' and 'hint', and in which [pattern], if
    there, is a string, [fix], if there, is an object whose [replace] is
    a string and whose [message], if there, is a string, and [disabled],
    if there, is a boolean.  Other members are allowed. *)
Theorem rule_schema_accepts v : validate rule v = true ↔ valid_rule v.
Proof. apply rule_valid. Qed.

Lemma rule_schema_accepts_witness :
  valid_rule (Object [ ("id", Str "r1");
                       ("level", Str "hint");
                       ("description", Str "x");
                       ("fix", Object [ ("replace", Str "y") ]);
                       ("owner", Number 7) ]).
Proof.
  apply (proj1 (rule_schema_accepts _)). vm_compute. reflexivity.
Defined.

Lemma document_schema_accepts_witness : valid_document (scenario "warning").
Proof.
  apply (proj1 (document_schema_accepts (scenario "warning"))).
  vm_compute. reflexivity.
Defined.

End schema_documents.
